(** * Document extractor API: the normalisation layer and the request handlers

    A shallow embedding of [app.py]: the two pure helpers
    ([extract_cheque_number_from_micr], [format_indian_currency]), the three
    normalisers ([extract_cheque_with_gemini], [extract_passbook_with_gemini],
    [extract_gst_with_gemini]) and the three request handlers
    ([process_cheque], [process_gst], [process_passbook]).

    Python strings are sequences of Unicode code points, so a string is a
    [list N].  What the interpreter supplies and the repository does not (the
    Unicode character database beyond ASCII, floating point numbers, [repr] of
    strings, [str.lower]) is the interface [Runtime]; what the outside world
    supplies (clock, disk, rasteriser, AI service) is the record [env]. *)

From Stdlib Require Import String Ascii NArith ZArith Lia DecimalN.
From stdpp Require Import base list option numbers gmap sets.

Set Warnings "-register-all,-clear-no-such-hyp".
Local Open Scope N_scope.

(** ** Strings *)

(** A string: its code points. *)
Abbreviation pystr := (list N) (only parsing).

(** Code points of a UTF-8 byte sequence (used for the literals below). *)
Fixpoint utf8_decode (bs : list N) : pystr :=
  match bs with
  | [] => []
  | b :: r =>
    if b <? 0x80 then b :: utf8_decode r
    else if b <? 0xE0 then
      match r with
      | c1 :: r1 => ((b - 0xC0) * 0x40 + (c1 - 0x80)) :: utf8_decode r1
      | _ => []
      end
    else if b <? 0xF0 then
      match r with
      | c1 :: c2 :: r2 =>
        ((b - 0xE0) * 0x1000 + (c1 - 0x80) * 0x40 + (c2 - 0x80)) :: utf8_decode r2
      | _ => []
      end
    else
      match r with
      | c1 :: c2 :: c3 :: r3 =>
        ((b - 0xF0) * 0x40000 + (c1 - 0x80) * 0x1000 + (c2 - 0x80) * 0x40 + (c3 - 0x80))
          :: utf8_decode r3
      | _ => []
      end
  end.

(** A source literal as a Python string. *)
Definition py (s : string) : pystr :=
  utf8_decode (map N_of_ascii (list_ascii_of_string s)).

(** The same, with every apostrophe standing for a double quote (for JSON
    texts). *)
Definition pyq (s : string) : pystr :=
  map (fun c => if c =? 39 then 34 else c) (py s).

(** ** The interpreter's side *)

(** Character classes and conversions of the Python runtime on code points
    from 128 up, floating point numbers, and two string functions. *)
Class Runtime : Type := {
  (** decimal value of a code point of category Nd ([\d], [int]) *)
  uni_decimal : N -> option N;
  (** [str.isspace] ([\s], [str.strip]) *)
  uni_space : N -> bool;
  (** alphabetic, digit or numeric ([\w] besides decimals and underscore) *)
  uni_alnum : N -> bool;
  (** [float], its construction from a JSON literal, truth value and [repr] *)
  float : Type;
  float_of_literal : pystr -> float;
  float_nonzero : float -> bool;
  float_repr : float -> pystr;
  (** [repr] of a [str] *)
  str_repr : pystr -> pystr;
  (** [str.lower] *)
  str_lower : pystr -> pystr
}.

(** The two MICR boundary glyphs. *)
Definition MICR_ON_US : N := 0x2448.    (* ⑈ *)
Definition MICR_TRANSIT : N := 0x2446.  (* ⑆ *)

(** What the theorems on MICR lines need of the character database: the two
    glyphs are symbols, and no decimal digit is white space. *)
Class UnicodeLaws (R : Runtime) : Prop := {
  on_us_not_decimal : uni_decimal MICR_ON_US = None;
  transit_not_decimal : uni_decimal MICR_TRANSIT = None;
  on_us_not_space : uni_space MICR_ON_US = false;
  transit_not_space : uni_space MICR_TRANSIT = false;
  decimal_not_space : forall c v, uni_decimal c = Some v -> uni_space c = false
}.

Section Classes.
Context {R : Runtime}.

(** [\d]: a decimal digit. *)
Definition is_decimal (c : N) : bool :=
  if c <? 128 then (48 <=? c) && (c <=? 57) else bool_decide (is_Some (uni_decimal c)).

(** [Py_UNICODE_TODECIMAL] on a decimal digit. *)
Definition decimal_value (c : N) : N :=
  if c <? 128 then c - 48 else default 0 (uni_decimal c).

(** [\s], [str.isspace]: tab to carriage return, the four separators, space. *)
Definition is_space (c : N) : bool :=
  if c <? 128 then ((9 <=? c) && (c <=? 13)) || ((28 <=? c) && (c <=? 32))
  else uni_space c.

(** [\w]: alphanumeric or underscore. *)
Definition is_word (c : N) : bool :=
  if c <? 128 then
    ((48 <=? c) && (c <=? 57)) || ((65 <=? c) && (c <=? 90))
    || ((97 <=? c) && (c <=? 122)) || (c =? 95)
  else is_decimal c || uni_alnum c.

End Classes.

(** ** String methods *)

Section Strings.
Context {R : Runtime}.

(** [s.startswith(p)] *)
Fixpoint startswith (p s : pystr) : bool :=
  match p, s with
  | [], _ => true
  | a :: p', b :: s' => (a =? b) && startswith p' s'
  | _ :: _, [] => false
  end.

(** [s.endswith(p)] *)
Definition endswith (p s : pystr) : bool := startswith (reverse p) (reverse s).

(** [s.find(sep)]: index of the first occurrence. *)
Fixpoint str_find (sep s : pystr) : option nat :=
  if startswith sep s then Some 0%nat
  else match s with
       | [] => None
       | _ :: r => S <$> str_find sep r
       end.

(** [s.split(sep)] for a non-empty separator: the pieces between the
    occurrences of [sep], found left to right without overlap. *)
Fixpoint str_split_fuel (fuel : nat) (sep s : pystr) : list pystr :=
  match fuel with
  | O => [s]
  | S f =>
    match str_find sep s with
    | None => [s]
    | Some i => take i s :: str_split_fuel f sep (drop (i + length sep) s)
    end
  end.

Definition str_split (sep s : pystr) : list pystr := str_split_fuel (length s) sep s.

Fixpoint lstrip (s : pystr) : pystr :=
  match s with
  | c :: r => if is_space c then lstrip r else s
  | [] => []
  end.

(** [s.strip()] *)
Definition strip (s : pystr) : pystr := reverse (lstrip (reverse (lstrip s))).

(** [sep.join(l)] *)
Fixpoint join (sep : pystr) (l : list pystr) : pystr :=
  match l with
  | [] => []
  | [x] => x
  | x :: r => x ++ sep ++ join sep r
  end.

(** [str(n)] for a non-negative integer. *)
Fixpoint digits_of_uint (d : Decimal.uint) : pystr :=
  match d with
  | Decimal.Nil => []
  | Decimal.D0 r => 48 :: digits_of_uint r
  | Decimal.D1 r => 49 :: digits_of_uint r
  | Decimal.D2 r => 50 :: digits_of_uint r
  | Decimal.D3 r => 51 :: digits_of_uint r
  | Decimal.D4 r => 52 :: digits_of_uint r
  | Decimal.D5 r => 53 :: digits_of_uint r
  | Decimal.D6 r => 54 :: digits_of_uint r
  | Decimal.D7 r => 55 :: digits_of_uint r
  | Decimal.D8 r => 56 :: digits_of_uint r
  | Decimal.D9 r => 57 :: digits_of_uint r
  end.

Definition str_of_N (n : N) : pystr := digits_of_uint (N.to_uint n).

Definition str_of_Z (z : Z) : pystr :=
  if (z <? 0)%Z then 45 :: str_of_N (Z.to_N (- z)) else str_of_N (Z.to_N z).

(** [int(digits)] on a string of decimal digits. *)
Definition py_int (digits : pystr) : N :=
  fold_left (fun acc c => 10 * acc + decimal_value c) digits 0.

End Strings.

(** ** Regular expressions

    The fragment of [re] the helpers use: character classes, greedy bounded
    repetition of a class, one capturing group, word boundaries and
    sequencing, matched by backtracking in the engine's priority order. *)

Inductive regex : Type :=
| RClass (p : N -> bool)
| RRepeat (lo : nat) (hi : option nat) (p : N -> bool)
| RBoundary
| RGroup (r : regex)
| RSeq (r1 r2 : regex).

(** A span [(start, stop)] of the subject. *)
Abbreviation span := (nat * nat)%type (only parsing).

(** What a successful match reports: where it stops and the group's span. *)
Abbreviation mresult := (nat * option (nat * nat))%type (only parsing).

Fixpoint has_group (r : regex) : bool :=
  match r with
  | RGroup _ => true
  | RSeq a b => has_group a || has_group b
  | _ => false
  end.

Definition below (hi : option nat) (count : nat) : bool :=
  match hi with
  | None => true
  | Some h => bool_decide (count < h)%nat
  end.

(** Greedy repetition of a class: take one more character when possible, and
    fall back to stopping here when the rest of the pattern then fails. *)
Fixpoint rep_class (p : N -> bool) (lo : nat) (hi : option nat)
    (k : nat -> option mresult) (rest : pystr) (count i : nat) : option mresult :=
  let stop := if bool_decide (lo <= count)%nat then k i else None in
  match rest with
  | c :: rest' =>
    if p c && below hi count then
      match rep_class p lo hi k rest' (S count) (S i) with
      | Some res => Some res
      | None => stop
      end
    else stop
  | [] => stop
  end.

Section Regex.
Context {R : Runtime}.

Section Subject.
Variable s : pystr.

Definition word_at (i : nat) : bool := from_option is_word false (s !! i).

(** [\b]: the characters on the two sides differ in being word characters;
    never in an empty subject. *)
Definition at_boundary (i : nat) : bool :=
  match s with
  | [] => false
  | _ =>
    let that := match i with O => false | S j => word_at j end in
    negb (eqb (word_at i) that)
  end.

Fixpoint sre_match (r : regex) (i : nat) (g : option span)
    (k : nat -> option span -> option mresult) : option mresult :=
  match r with
  | RClass p =>
    match s !! i with
    | Some c => if p c then k (S i) g else None
    | None => None
    end
  | RRepeat lo hi p => rep_class p lo hi (fun j => k j g) (drop i s) 0 i
  | RBoundary => if at_boundary i then k i g else None
  | RGroup a => sre_match a i g (fun j _ => k j (Some (i, j)))
  | RSeq a b => sre_match a i g (fun j g' => sre_match b j g' k)
  end.

(** A match of [r] starting exactly at [i]. *)
Definition match_at (r : regex) (i : nat) : option mresult :=
  sre_match r i None (fun j g => Some (j, g)).

(** The leftmost match from [i] on, trying [n] start positions. *)
Fixpoint search_from (r : regex) (n i : nat) : option (nat * mresult) :=
  match n with
  | O => None
  | S n' =>
    match match_at r i with
    | Some res => Some (i, res)
    | None => search_from r n' (S i)
    end
  end.

Definition sre_search (r : regex) (pos : nat) : option (nat * mresult) :=
  search_from r (S (length s) - pos) pos.

Definition substr (a b : nat) : pystr := take (b - a) (drop a s).

(** The successive non-overlapping matches, left to right. *)
Fixpoint matches_from (fuel : nat) (r : regex) (pos : nat) : list (nat * mresult) :=
  match fuel with
  | O => []
  | S f =>
    match sre_search r pos with
    | None => []
    | Some (i, (j, g)) =>
      (i, (j, g)) :: matches_from f r (if bool_decide (j = i) then S j else j)
    end
  end.

(** What [findall] reports for one match: the group when the pattern has
    one (empty when it took no part), the whole match otherwise. *)
Definition match_item (r : regex) (m : nat * mresult) : pystr :=
  let '(i, (j, g)) := m in
  if has_group r then
    match g with
    | Some (a, b) => substr a b
    | None => []
    end
  else substr i j.

(** [re.findall(r, s)] *)
Definition re_findall (r : regex) : list pystr :=
  map (match_item r) (matches_from (S (length s)) r 0).

(** [re.sub(r, repl, s)]: every match replaced by [repl]. *)
Fixpoint sub_from (fuel : nat) (r : regex) (repl : pystr) (pos : nat) : pystr :=
  match fuel with
  | O => drop pos s
  | S f =>
    match sre_search r pos with
    | None => drop pos s
    | Some (i, (j, _)) =>
      substr pos i ++ repl
        ++ (if bool_decide (j = i) then substr i (S i) else [])
        ++ sub_from f r repl (if bool_decide (j = i) then S j else j)
    end
  end.

Definition re_sub (r : regex) (repl : pystr) : pystr :=
  sub_from (S (length s)) r repl 0.

End Subject.
End Regex.

(** ** Values

    What [json.loads] produces: [None], booleans, integers, floats, strings,
    lists and dictionaries (keys in insertion order). *)

Inductive pyval {R : Runtime} : Type :=
| PyNone
| PyBool (b : bool)
| PyInt (z : Z)
| PyFloat (f : float)
| PyStr (s : pystr)
| PyList (l : list pyval)
| PyDict (d : list (pystr * pyval)).

(** A dictionary: its items in insertion order. *)
Abbreviation pydict := (list (list N * pyval)) (only parsing).

Section Values.
Context {R : Runtime}.


(** Truth value: [bool(v)]. *)
Definition py_truthy (v : pyval) : bool :=
  match v with
  | PyNone => false
  | PyBool b => b
  | PyInt z => negb (z =? 0)%Z
  | PyFloat f => float_nonzero f
  | PyStr s => negb (bool_decide (s = []))
  | PyList l => match l with [] => false | _ => true end
  | PyDict d => match d with [] => false | _ => true end
  end.

(** [repr(v)] *)
Fixpoint py_repr (v : pyval) : pystr :=
  match v with
  | PyNone => py "None"
  | PyBool b => if b then py "True" else py "False"
  | PyInt z => str_of_Z z
  | PyFloat f => float_repr f
  | PyStr s => str_repr s
  | PyList l => py "[" ++ join (py ", ") (map py_repr l) ++ py "]"
  | PyDict d =>
    py "{"
      ++ join (py ", ") (map (fun kv => str_repr (fst kv) ++ py ": " ++ py_repr (snd kv)) d)
      ++ py "}"
  end.

(** [str(v)], also what an f-string field renders. *)
Definition py_str (v : pyval) : pystr :=
  match v with
  | PyStr s => s
  | _ => py_repr v
  end.

(** [d[k]] when present. *)
Fixpoint dict_lookup (d : pydict) (k : pystr) : option pyval :=
  match d with
  | [] => None
  | (k', v) :: r => if bool_decide (k' = k) then Some v else dict_lookup r k
  end.

(** [d[k] = v]: in place when the key is present, appended otherwise. *)
Fixpoint dict_set (d : pydict) (k : pystr) (v : pyval) : pydict :=
  match d with
  | [] => [(k, v)]
  | (k', v') :: r => if bool_decide (k' = k) then (k', v) :: r else (k', v') :: dict_set r k v
  end.

(** [d.get(k, dflt)] *)
Definition dict_get (d : pydict) (k : pystr) (dflt : pyval) : pyval :=
  default dflt (dict_lookup d k).

End Values.

(** ** Helper functions *)

Section Helpers.
Context {R : Runtime}.

Definition micr_glyph (c : N) : bool := (c =? MICR_ON_US) || (c =? MICR_TRANSIT).

(** [[⑈⑆]\s*(\d+)\s*[⑈⑆]] *)
Definition MICR_SEGMENT : regex :=
  RSeq (RClass micr_glyph)
    (RSeq (RRepeat 0 None is_space)
      (RSeq (RGroup (RRepeat 1 None is_decimal))
        (RSeq (RRepeat 0 None is_space) (RClass micr_glyph)))).

(** [\b\d{6}\b] *)
Definition SIX_DIGITS : regex :=
  RSeq RBoundary (RSeq (RRepeat 6 (Some 6%nat) is_decimal) RBoundary).

(** [[^\d]] *)
Definition NON_DIGIT : regex := RClass (fun c => negb (is_decimal c)).

(** [extract_cheque_number_from_micr]: the cheque number of a MICR line.
    [None] stands for the [TypeError] that [re.findall] raises on a value
    that is no string. *)
Definition extract_cheque_number_from_micr (micr_code : pyval) : option pystr :=
  if negb (py_truthy micr_code) then Some []
  else
    match micr_code with
    | PyStr s =>
      let parts := re_findall s MICR_SEGMENT in
      if bool_decide (1 <= length parts)%nat then parts !! 0%nat
      else
        let fallback := re_findall s SIX_DIGITS in
        match fallback with
        | _ :: _ => fallback !! 0%nat
        | [] => Some []
        end
    | _ => None
    end.

(** The body of the grouping loop at index [i]: [remaining[i]] goes in front,
    and a comma in front of it after every second digit except at the left
    end.  ([i] ranges over the indices of [remaining].) *)
Definition group_step (remaining : pystr) (formatted : pystr) (i : nat) : pystr :=
  match remaining !! i with
  | Some c =>
    let formatted := c :: formatted in
    if bool_decide (0 < i)%nat && bool_decide ((length remaining - i) `mod` 2 = 0)%nat
    then 44 :: formatted
    else formatted
  | None => formatted
  end.

(** The digits of an amount with the separators of the Indian system. *)
Definition indian_digits (s : pystr) : pystr :=
  if bool_decide (3 < length s)%nat then
    let last_three := drop (length s - 3) s in
    let remaining := take (length s - 3) s in
    let formatted :=
      fold_left (group_step remaining) (reverse (seq 0 (length remaining))) [] in
    formatted ++ 44 :: last_three
  else s.

(** [format_indian_currency] *)
Definition format_indian_currency (amount_str : pyval) : pystr :=
  if negb (py_truthy amount_str) then []
  else
    let digits := re_sub (py_str amount_str) NON_DIGIT [] in
    match digits with
    | [] => []
    | _ =>
      let amount := py_int digits in
      let s := indian_digits (str_of_N amount) in
      py "₹ " ++ s ++ py "/-"
    end.

End Helpers.

(** ** [json.loads]

    The decoder of the standard library on a [str]: [None] stands for
    [JSONDecodeError].  [fuel] bounds the number of values read; a text holds
    fewer values than characters. *)

Section Json.
Context {R : Runtime}.

Definition json_ws (c : N) : bool := (c =? 32) || (c =? 9) || (c =? 10) || (c =? 13).

Fixpoint skip_ws (s : pystr) : pystr :=
  match s with
  | c :: r => if json_ws c then skip_ws r else s
  | [] => []
  end.

Definition ascii_digit (c : N) : bool := (48 <=? c) && (c <=? 57).

Definition hex_value (c : N) : option N :=
  if (48 <=? c) && (c <=? 57) then Some (c - 48)
  else if (65 <=? c) && (c <=? 70) then Some (c - 55)
  else if (97 <=? c) && (c <=? 102) then Some (c - 87)
  else None.

Definition hex4 (a b c d : N) : option N :=
  va ← hex_value a; vb ← hex_value b; vc ← hex_value c; vd ← hex_value d;
  Some (((va * 16 + vb) * 16 + vc) * 16 + vd).

(** The character a one-letter escape stands for. *)
Definition simple_escape (c : N) : option N :=
  if (c =? 34) || (c =? 92) || (c =? 47) then Some c
  else if c =? 98 then Some 8
  else if c =? 102 then Some 12
  else if c =? 110 then Some 10
  else if c =? 114 then Some 13
  else if c =? 116 then Some 9
  else None.

Definition high_surrogate (c : N) : bool := (0xD800 <=? c) && (c <=? 0xDBFF).
Definition low_surrogate (c : N) : bool := (0xDC00 <=? c) && (c <=? 0xDFFF).

(** The string after its opening quote: its characters and the text after the
    closing quote.  Control characters are refused (strict mode). *)
Fixpoint scan_string (s : pystr) (acc : pystr) : option (pystr * pystr) :=
  match s with
  | [] => None
  | c :: r =>
    if c =? 34 then Some (reverse acc, r)
    else if c =? 92 then
      match r with
      | [] => None
      | e :: r1 =>
        if e =? 117 then
          match r1 with
          | h1 :: h2 :: h3 :: h4 :: r2 =>
            match hex4 h1 h2 h3 h4 with
            | None => None
            | Some u =>
              match r2 with
              | b :: v :: l1 :: l2 :: l3 :: l4 :: r3 =>
                if high_surrogate u && (b =? 92) && (v =? 117) then
                  match hex4 l1 l2 l3 l4 with
                  | None => None
                  | Some u2 =>
                    if low_surrogate u2
                    then scan_string r3
                           ((0x10000 + (u - 0xD800) * 0x400 + (u2 - 0xDC00)) :: acc)
                    else scan_string r2 (u :: acc)
                  end
                else scan_string r2 (u :: acc)
              | _ => scan_string r2 (u :: acc)
              end
            end
          | _ => None
          end
        else
          match simple_escape e with
          | Some ch => scan_string r1 (ch :: acc)
          | None => None
          end
      end
    else if c <=? 0x1F then None
    else scan_string r (c :: acc)
  end.

Fixpoint span_digits (s : pystr) : pystr * pystr :=
  match s with
  | c :: r =>
    if ascii_digit c then let '(ds, rest) := span_digits r in (c :: ds, rest) else ([], s)
  | [] => ([], [])
  end.

(** The value of a string of ASCII digits. *)
Definition digits_value (ds : pystr) : N := fold_left (fun acc c => 10 * acc + (c - 48)) ds 0.

(** A number: an integer part, then an optional fraction and exponent, each
    taken only when complete.  An integer literal is an [int], any other a
    [float]. *)
Definition scan_number (s : pystr) : option (pyval * pystr) :=
  let '(neg, s1) := match s with 45 :: r => (true, r) | _ => (false, s) end in
  match s1 with
  | [] => None
  | c :: r =>
    if negb (ascii_digit c) then None
    else
      let '(int_part, r1) := if c =? 48 then ([c], r) else
                               let '(ds, rest) := span_digits r in (c :: ds, rest) in
      let '(frac, r2) :=
        match r1 with
        | 46 :: r' =>
          match span_digits r' with
          | ([], _) => ([], r1)
          | (fd, rest) => (46 :: fd, rest)
          end
        | _ => ([], r1)
        end in
      let '(expo, r3) :=
        match r2 with
        | e :: r' =>
          if (e =? 101) || (e =? 69) then
            let '(sign, r'') :=
              match r' with
              | sg :: t => if (sg =? 43) || (sg =? 45) then ([sg], t) else ([], r')
              | [] => ([], r')
              end in
            match span_digits r'' with
            | ([], _) => ([], r2)
            | (ed, rest) => (e :: sign ++ ed, rest)
            end
          else ([], r2)
        | [] => ([], r2)
        end in
      let sign := if neg then [45] else [] in
      match frac, expo with
      | [], [] =>
        let n := Z.of_N (digits_value int_part) in
        Some (PyInt (if neg then (- n)%Z else n), r3)
      | _, _ => Some (PyFloat (float_of_literal (sign ++ int_part ++ frac ++ expo)), r3)
      end
  end.

(** [s] without the literal [lit] in front of it. *)
Definition after_literal (lit s : pystr) : option pystr :=
  if startswith lit s then Some (drop (length lit) s) else None.

Fixpoint scan_value (fuel : nat) (s : pystr) : option (pyval * pystr) :=
  match fuel with
  | O => None
  | S f =>
    match s with
    | [] => None
    | c :: r =>
      if c =? 34 then
        '(str, rest) ← scan_string r []; Some (PyStr str, rest)
      else if c =? 123 then
        match skip_ws r with
        | 125 :: rest => Some (PyDict [], rest)
        | r' => scan_members f r' []
        end
      else if c =? 91 then
        match skip_ws r with
        | 93 :: rest => Some (PyList [], rest)
        | r' => scan_elements f r' []
        end
      else if c =? 110 then rest ← after_literal (py "null") s; Some (PyNone, rest)
      else if c =? 116 then rest ← after_literal (py "true") s; Some (PyBool true, rest)
      else if c =? 102 then rest ← after_literal (py "false") s; Some (PyBool false, rest)
      else if c =? 78 then
        rest ← after_literal (py "NaN") s; Some (PyFloat (float_of_literal (py "NaN")), rest)
      else if c =? 73 then
        rest ← after_literal (py "Infinity") s;
        Some (PyFloat (float_of_literal (py "Infinity")), rest)
      else if startswith (py "-Infinity") s then
        Some (PyFloat (float_of_literal (py "-Infinity")), drop 9 s)
      else scan_number s
    end
  end
(** The elements of an array after its bracket, up to the closing one. *)
with scan_elements (fuel : nat) (s : pystr) (acc : list pyval) : option (pyval * pystr) :=
  match fuel with
  | O => None
  | S f =>
    '(v, rest) ← scan_value f s;
    match skip_ws rest with
    | 93 :: rest' => Some (PyList (reverse (v :: acc)), rest')
    | 44 :: rest' => scan_elements f (skip_ws rest') (v :: acc)
    | _ => None
    end
  end
(** The members of an object after its brace: a later value for a key
    replaces the earlier one. *)
with scan_members (fuel : nat) (s : pystr) (acc : pydict) : option (pyval * pystr) :=
  match fuel with
  | O => None
  | S f =>
    match s with
    | 34 :: r =>
      '(key, rest) ← scan_string r [];
      match skip_ws rest with
      | 58 :: rest1 =>
        '(v, rest2) ← scan_value f (skip_ws rest1);
        match skip_ws rest2 with
        | 125 :: rest3 => Some (PyDict (dict_set acc key v), rest3)
        | 44 :: rest3 => scan_members f (skip_ws rest3) (dict_set acc key v)
        | _ => None
        end
      | _ => None
      end
    | _ => None
    end
  end.

(** [json.loads(s)] *)
Definition json_loads (s : pystr) : option pyval :=
  if startswith [0xFEFF] s then None
  else
    '(v, rest) ← scan_value (S (length s)) (skip_ws s);
    match skip_ws rest with
    | [] => Some v
    | _ => None
    end.

End Json.

(** ** The outside world *)

(** An exception, by what [str(e)] gives. *)
Record exn : Type := Exception { exn_str : pystr }.

(** A decoded image; the model never looks inside. *)
Abbreviation image := (list N) (only parsing).

(** An uploaded file: the name the client gave and the bytes. *)
Record upload : Type := Upload { filename : pystr; content : list N }.

Inductive doc_type : Type := Cheque | Passbook | Gst.

(** The collaborators of one request.  A call either returns or raises. *)
Record env : Type := Env {
  (** [datetime.now().strftime('%Y%m%d_%H%M%S')] in the handler *)
  now_stamp : pystr;
  (** [datetime.now().isoformat()] in the normaliser *)
  now_iso : pystr;
  (** [file.save(path)]: the exception, if it raises *)
  file_save : upload -> pystr -> option exn;
  (** [convert_from_path(path, dpi=...)]: the pages *)
  convert_from_path : pystr -> N -> exn + list image;
  (** [page.save(path, format)] *)
  image_save : image -> pystr -> pystr -> option exn;
  (** [Image.open(path)] *)
  image_open : pystr -> exn + image;
  (** [gemini_model.generate_content([prompt, img]).text], the prompt being
      the one of the document type *)
  generate_content : doc_type -> image -> exn + pystr;
  (** [os.remove(path)] *)
  os_remove : pystr -> option exn
}.

(** ** The normalisers *)

Section Normalisers.
Context {R : Runtime}.

Definition FENCE : pystr := Eval cbv in py "```".
Definition FENCE_JSON : pystr := Eval cbv in py "```json".

(** The text between the opening fence [fence] and the next fence:
    [json_text.split(fence)[1].split('```')[0].strip()].  [None] is the
    [IndexError] of a missing piece. *)
Definition between_fences (fence json_text : pystr) : option pystr :=
  piece ← str_split fence json_text !! 1%nat;
  inner ← str_split FENCE piece !! 0%nat;
  Some (strip inner).

(** The unwrapping of the response text. *)
Definition unwrap (text : pystr) : option pystr :=
  let json_text := strip text in
  if startswith FENCE_JSON json_text then between_fences FENCE_JSON json_text
  else if startswith FENCE json_text then between_fences FENCE json_text
  else Some json_text.

(** Unwrap, then [json.loads]. *)
Definition parse_response (text : pystr) : option pyval :=
  json_text ← unwrap text;
  json_loads json_text.

Definition empty_str : pyval := PyStr [].

(** [extracted.get(k, '')]. *)
Definition field (d : pydict) (k : string) : pyval := dict_get d (py k) empty_str.

(** The cheque record built from the decoded response; [None] when an
    exception is raised ([extracted] has no [get], or the MICR parser raises). *)
Definition cheque_record (now : pystr) (extracted : pyval) : option pydict :=
  match extracted with
  | PyDict d =>
    let micr_code := field d "micr_code" in
    cheque_number ← extract_cheque_number_from_micr micr_code;
    let amount_num := field d "amount_numbers" in
    let formatted_amount :=
      if py_truthy amount_num then format_indian_currency amount_num else [] in
    Some [ (py "document_type", PyStr (py "cheque"));
           (py "bank_name", field d "bank_name");
           (py "account_holder_name", field d "account_holder_name");
           (py "payee_name", field d "payee_name");
           (py "amount_words", field d "amount_words");
           (py "amount_numbers", amount_num);
           (py "amount_formatted", PyStr formatted_amount);
           (py "date", field d "date");
           (py "account_number", field d "account_number");
           (py "ifsc_code", field d "ifsc_code");
           (py "micr_code", micr_code);
           (py "cheque_number", PyStr cheque_number);
           (py "prefix_number", field d "prefix_number");
           (py "branch_name", field d "branch_name");
           (py "branch_code", field d "branch_code");
           (py "extracted_at", PyStr now) ]
  | _ => None
  end.

(** The passbook record. *)
Definition passbook_record (now : pystr) (extracted : pyval) : option pydict :=
  match extracted with
  | PyDict d =>
    Some [ (py "document_type", PyStr (py "passbook"));
           (py "cif_number", field d "cif_number");
           (py "account_number", field d "account_number");
           (py "customer_name", field d "customer_name");
           (py "father_husband_name", field d "father_husband_name");
           (py "address", field d "address");
           (py "phone", field d "phone");
           (py "email", field d "email");
           (py "date_of_birth", field d "date_of_birth");
           (py "minor_status", field d "minor_status");
           (py "nominee_reg_number", field d "nominee_reg_number");
           (py "branch_name", field d "branch_name");
           (py "branch_code", field d "branch_code");
           (py "ifsc_code", field d "ifsc_code");
           (py "micr_code", field d "micr_code");
           (py "account_type", field d "account_type");
           (py "date_of_issue", field d "date_of_issue");
           (py "date_of_activation", field d "date_of_activation");
           (py "extracted_at", PyStr now) ]
  | _ => None
  end.

(** [extracted.get(k)] *)
Definition present (d : pydict) (k : string) : pyval := dict_get d (py k) PyNone.

(** [', '.join(filter(None, parts))]: [None] is the [TypeError] on an item
    that is no string. *)
Fixpoint strings_of (l : list pyval) : option (list pystr) :=
  match l with
  | [] => Some []
  | PyStr s :: r => rest ← strings_of r; Some (s :: rest)
  | _ :: _ => None
  end.

Definition join_truthy (sep : pystr) (parts : list pyval) : option pystr :=
  items ← strings_of (filter (fun v => py_truthy v = true) parts);
  Some (join sep items).

(** The parts of the address, in the order they are appended. *)
Definition address_parts (d : pydict) : list pyval :=
  let parts := [] in
  let parts :=
    if py_truthy (present d "floor_number")
    then parts ++ [PyStr (py "Floor: " ++ py_str (present d "floor_number"))] else parts in
  let parts :=
    if py_truthy (present d "building_number")
    then parts ++ [PyStr (py "Building: " ++ py_str (present d "building_number"))]
    else parts in
  let parts :=
    if py_truthy (present d "premises_name")
    then parts ++ [present d "premises_name"] else parts in
  let parts :=
    if py_truthy (present d "road_street")
    then parts ++ [present d "road_street"] else parts in
  let parts :=
    if py_truthy (present d "locality")
    then parts ++ [present d "locality"] else parts in
  parts.

(** The GST certificate record. *)
Definition gst_record (now : pystr) (extracted : pyval) : option pydict :=
  match extracted with
  | PyDict d =>
    full_address ← join_truthy (py ", ") (address_parts d);
    Some [ (py "document_type", PyStr (py "gst_certificate"));
           (py "registration_number", field d "registration_number");
           (py "legal_name", field d "legal_name");
           (py "trade_name", field d "trade_name");
           (py "constitution", field d "constitution");
           (py "floor_number", field d "floor_number");
           (py "building_number", field d "building_number");
           (py "premises_name", field d "premises_name");
           (py "road_street", field d "road_street");
           (py "locality", field d "locality");
           (py "full_address", PyStr full_address);
           (py "city", field d "city");
           (py "district", field d "district");
           (py "state", field d "state");
           (py "pin_code", field d "pin_code");
           (py "validity_from", field d "validity_from");
           (py "validity_to", field d "validity_to");
           (py "registration_type", field d "registration_type");
           (py "approving_officer", field d "approving_officer");
           (py "designation", field d "designation");
           (py "office", field d "office");
           (py "issue_date", field d "issue_date");
           (py "extracted_at", PyStr now) ]
  | _ => None
  end.

(** The body of a normaliser's [try]: ask the service, unwrap, decode, build
    the record.  Any exception makes it [None]. *)
Definition normalise (e : env) (doc : doc_type)
    (record : pystr -> pyval -> option pydict) (img : image) : option pydict :=
  match generate_content e doc img with
  | inl _ => None
  | inr text =>
    extracted ← parse_response text;
    record (now_iso e) extracted
  end.

(** [extract_cheque_with_gemini]: the image is opened before the [try], so
    that exception reaches the caller. *)
Definition extract_cheque_with_gemini (e : env) (image_path : pystr) : exn + option pydict :=
  match image_open e image_path with
  | inl x => inl x
  | inr img => inr (normalise e Cheque cheque_record img)
  end.

Definition extract_passbook_with_gemini (e : env) (image_path : pystr) : exn + option pydict :=
  match image_open e image_path with
  | inl x => inl x
  | inr img => inr (normalise e Passbook passbook_record img)
  end.

Definition extract_gst_with_gemini (e : env) (image_path : pystr) : exn + option pydict :=
  match image_open e image_path with
  | inl x => inl x
  | inr img => inr (normalise e Gst gst_record img)
  end.

End Normalisers.

(** ** The request handlers *)

(** A call to a collaborator. *)
Inductive event : Type :=
| CallSave (path : pystr)
| CallConvert (path : pystr) (dpi : N)
| CallPageSave (path : pystr) (format : pystr)
| CallExtract (doc : doc_type) (path : pystr)
| CallRemove (path : pystr).

(** The files on disk and the calls made so far. *)
Record world : Type := World { fs : gset pystr; calls : list event }.

(** A computation that may raise and changes the world. *)
Definition M (A : Type) : Type := world -> (exn + A) * world.

#[global] Instance M_ret : MRet M := fun A a w => (inr a, w).

#[global] Instance M_bind : MBind M := fun A B k m w =>
  match m w with
  | (inl x, w') => (inl x, w')
  | (inr a, w') => k a w'
  end.

Definition raise {A : Type} (x : exn) : M A := fun w => (inl x, w).

(** A call noted, then its outcome. *)
Definition call (ev : event) : M unit :=
  fun w => (inr tt, World (fs w) (calls w ++ [ev])).

Definition lift {A : Type} (r : exn + A) : M A := fun w => (r, w).

Definition check (r : option exn) : M unit :=
  match r with
  | Some x => raise x
  | None => mret tt
  end.

Definition create (path : pystr) : M unit :=
  fun w => (inr tt, World ({[ path ]} ∪ fs w) (calls w)).

Definition delete (path : pystr) : M unit :=
  fun w => (inr tt, World (fs w ∖ {[ path ]}) (calls w)).

(** [try: body / except Exception as e: handler(e)] *)
Definition try_except {A : Type} (body : M A) (handler : exn -> M A) : M A :=
  fun w =>
    match body w with
    | (inl x, w') => handler x w'
    | (inr a, w') => (inr a, w')
    end.

Section Handlers.
Context {R : Runtime}.

(** A response: the status code and the JSON object given to [jsonify]. *)
Record response : Type := Response { status : N; body : pydict }.

Definition UPLOAD_FOLDER : pystr := Eval cbv in py "uploads".

(** [os.path.join(a, b)] *)
Definition path_join (a b : pystr) : pystr :=
  if startswith [47] b then b
  else if bool_decide (a = []) || endswith [47] a then a ++ b
  else a ++ 47 :: b.

(** [request.files]: the file parts by field name. *)
Record request : Type := Request { files : list (pystr * upload) }.

Fixpoint files_lookup (l : list (pystr * upload)) (k : pystr) : option upload :=
  match l with
  | [] => None
  | (k', u) :: r => if bool_decide (k' = k) then Some u else files_lookup r k
  end.

Definition file_save_to (e : env) (file : upload) (path : pystr) : M unit :=
  call (CallSave path);; check (file_save e file path);; create path.

Definition convert (e : env) (path : pystr) (dpi : N) : M (list image) :=
  call (CallConvert path dpi);; lift (convert_from_path e path dpi).

Definition page_save (e : env) (page : image) (path format : pystr) : M unit :=
  call (CallPageSave path format);; check (image_save e page path format);; create path.

Definition remove (e : env) (path : pystr) : M unit :=
  call (CallRemove path);; check (os_remove e path);; delete path.

(** [images[0]] *)
Definition first_page (images : list image) : M image :=
  match images !! 0%nat with
  | Some page => mret page
  | None => raise (Exception (py "list index out of range"))
  end.

Definition extract (doc : doc_type) (run : pystr -> exn + option pydict) (path : pystr)
    : M (option pydict) :=
  call (CallExtract doc path);; lift (run path).

(** [if not data] *)
Definition no_data (data : option pydict) : bool :=
  match data with
  | None => true
  | Some d => negb (py_truthy (PyDict d))
  end.

Definition error_body (error message : pystr) : pydict :=
  [ (py "success", PyBool false); (py "error", PyStr error); (py "message", PyStr message) ].

(** The texts in which the three handlers differ. *)
Record wording : Type := Wording {
  upload_hint : pystr;
  failure_message : pystr;
  success_message : pystr
}.

(** Where the upload is saved: the upload folder, then the time stamp, an
    underscore and the client's file name. *)
Definition saved_path (e : env) (file : upload) : pystr :=
  let filename := now_stamp e ++ py "_" ++ filename file in
  path_join UPLOAD_FOLDER filename.

(** Where the first page of a PDF is written. *)
Definition page_path (filepath : pystr) : pystr := filepath ++ py "_page1.jpg".

(** [filepath.lower().endswith('.pdf')] *)
Definition is_pdf (filepath : pystr) : bool := endswith (py ".pdf") (str_lower filepath).

(** The [try] suite of a handler. *)
Definition process_body (doc : doc_type) (run : env -> pystr -> exn + option pydict)
    (words : wording) (e : env) (req : request) : M response :=
  match files_lookup (files req) (py "file") with
  | None => mret (Response 400 (error_body (py "No file provided") (upload_hint words)))
  | Some file =>
    if bool_decide (filename file = [])
    then mret (Response 400 (error_body (py "Empty filename") (py "No file selected")))
    else
      let filepath := saved_path e file in
      file_save_to e file filepath;;
      data ← (if is_pdf filepath then
                images ← convert e filepath 300;
                let temp_img := page_path filepath in
                page ← first_page images;
                page_save e page temp_img (py "JPEG");;
                data ← extract doc (run e) temp_img;
                remove e temp_img;;
                mret data
              else extract doc (run e) filepath);
      remove e filepath;;
      if no_data data
      then mret (Response 500 (error_body (py "Extraction failed") (failure_message words)))
      else
        mret (Response 200
                [ (py "success", PyBool true);
                  (py "message", PyStr (success_message words));
                  (py "data", PyDict (default [] data)) ])
  end.

(** The [except Exception as e] clause. *)
Definition server_error (x : exn) : M response :=
  mret (Response 500 (error_body (py "Server error") (exn_str x))).

(** The handler of an extraction route.  The three routes run this code, each
    with its own normaliser and wording. *)
Definition process (doc : doc_type) (run : env -> pystr -> exn + option pydict)
    (words : wording) (e : env) (req : request) : M response :=
  try_except (process_body doc run words e req) server_error.

Definition cheque_wording : wording :=
  Wording (py "Please upload a cheque image or PDF")
    (py "Failed to extract cheque data. Please ensure the image is clear and readable.")
    (py "Cheque data extracted successfully").

Definition gst_wording : wording :=
  Wording (py "Please upload a GST certificate image or PDF")
    (py "Failed to extract GST data. Please ensure the certificate is clear and readable.")
    (py "GST certificate data extracted successfully").

Definition passbook_wording : wording :=
  Wording (py "Please upload a passbook image or PDF")
    (py "Failed to extract passbook data. Please ensure the cover page is clear and readable.")
    (py "Passbook data extracted successfully").

(** [POST /api/extract/cheque] *)
Definition process_cheque : env -> request -> M response :=
  process Cheque extract_cheque_with_gemini cheque_wording.

(** [POST /api/extract/gst] *)
Definition process_gst : env -> request -> M response :=
  process Gst extract_gst_with_gemini gst_wording.

(** [POST /api/extract/passbook] *)
Definition process_passbook : env -> request -> M response :=
  process Passbook extract_passbook_with_gemini passbook_wording.

End Handlers.

(** ** Specifications

    What the claims say, in their own terms, to be compared with the code. *)

Section Specifications.
Context {R : Runtime}.

(** A list cut into pairs from the left; a last odd element stands alone. *)
Fixpoint pairs (l : pystr) : list pystr :=
  match l with
  | a :: b :: r => [a; b] :: pairs r
  | [a] => [[a]]
  | [] => []
  end.

(** The digits in pairs counted from the right. *)
Definition pairs_from_right (d : pystr) : list pystr :=
  reverse (map reverse (pairs (reverse d))).

(** Indian grouping: the last three digits are one group, the digits before
    them go in pairs from the right. *)
Definition indian_groups (d : pystr) : list pystr :=
  if bool_decide (3 < length d)%nat
  then pairs_from_right (take (length d - 3) d) ++ [drop (length d - 3) d]
  else [d].

(** From index [i], [s] reads: a boundary glyph, white space, the digits
    [d], white space, a boundary glyph. *)
Definition bounded_at (s : pystr) (i : nat) (d : pystr) : Prop :=
  exists g1 ws1 ws2 g2 rest,
    drop i s = g1 :: ws1 ++ d ++ ws2 ++ g2 :: rest
    /\ micr_glyph g1 = true /\ micr_glyph g2 = true
    /\ forallb is_space ws1 = true /\ forallb is_space ws2 = true
    /\ forallb is_decimal d = true /\ d <> [].

(** At index [i] of [s] stand the six digits [d], with a word boundary on
    each side. *)
Definition token_at (s : pystr) (i : nat) (d : pystr) : Prop :=
  take 6 (drop i s) = d /\ length d = 6%nat /\ forallb is_decimal d = true
  /\ at_boundary s i = true /\ at_boundary s (i + 6) = true.







Definition is_str (v : pyval) : bool :=
  match v with
  | PyStr _ => true
  | _ => false
  end.


(** The address sub-fields of a GST response, in order. *)
Definition address_sub_fields : list string :=
  [ "floor_number"; "building_number"; "premises_name"; "road_street"; "locality" ]%string.

(** The address as the claim words it: the non-empty sub-field values
    themselves, joined by a comma and a space. *)
Definition spec_full_address (d : pydict) : pystr :=
  join (py ", ")
    (List.filter (fun s => negb (bool_decide (s = [])))
       (map (fun k => py_str (field d k)) address_sub_fields)).

(** A part of the address as the code writes it: the label, then the value,
    when the value counts as true. *)
Definition labelled (label : string) (v : pyval) : list pystr :=
  if py_truthy v then [py label ++ py_str v] else [].

Definition address_lines (d : pydict) : list pystr :=
  labelled "Floor: " (present d "floor_number")
    ++ labelled "Building: " (present d "building_number")
    ++ labelled "" (present d "premises_name")
    ++ labelled "" (present d "road_street")
    ++ labelled "" (present d "locality").

(** A payload in a fenced block: the fence with its tag, a line break, the
    payload, a line break, the fence. *)
Definition fenced (tag p : pystr) : pystr := FENCE ++ tag ++ 10 :: p ++ 10 :: FENCE.

(** An extraction route: the document type, the normaliser, the wording and
    the handler. *)
Record route : Type := Route {
  document : doc_type;
  normaliser : env -> list N -> exn + option pydict;
  words : wording;
  handler : env -> request -> M response
}.

(** The three extraction routes. *)
Definition routes : list route :=
  [ Route Cheque extract_cheque_with_gemini cheque_wording process_cheque;
    Route Gst extract_gst_with_gemini gst_wording process_gst;
    Route Passbook extract_passbook_with_gemini passbook_wording process_passbook ].

(** The envelope of a success. *)
Definition success_body (message : list N) (data : pydict) : pydict :=
  [ (py "success", PyBool true); (py "message", PyStr message); (py "data", PyDict data) ].

(** The request carries a file part [file] with a name: it reaches the
    materialisation step. *)
Definition materialises (req : request) (file : upload) : Prop :=
  files_lookup (files req) (py "file") = Some file /\ filename file <> [].

(** The response is the one of the [except] clause. *)
Definition is_server_error (resp : response) : Prop :=
  dict_lookup (body resp) (py "error") = Some (PyStr (py "Server error")).

End Specifications.

(** ** A sample interpreter and a sample world *)

Definition ascii_lower (c : N) : N := if (65 <=? c) && (c <=? 90) then c + 32 else c.

(** An interpreter that knows, beyond ASCII, the Arabic-Indic digits and the
    no-break space, keeps a float as its literal, and lowers ASCII letters. *)
Definition sample_runtime : Runtime := {|
  uni_decimal := fun c => if (0x660 <=? c) && (c <=? 0x669) then Some (c - 0x660) else None;
  uni_space := fun c => c =? 0xA0;
  uni_alnum := fun c => (0xC0 <=? c) && (c <=? 0x24F);
  float := pystr;
  float_of_literal := fun l => l;
  float_nonzero := fun l => negb (forallb (fun c => negb ((49 <=? c) && (c <=? 57))) l);
  float_repr := fun l => l;
  str_repr := fun s => 39 :: s ++ [39];
  str_lower := map ascii_lower
|}.

(** A world in which every collaborator succeeds and the service answers
    [text]. *)
Definition kind_env (text : pystr) : env := {|
  now_stamp := py "20250101_120000";
  now_iso := py "2025-01-01T12:00:00";
  file_save := fun _ _ => None;
  convert_from_path := fun _ _ => inr [[1]];
  image_save := fun _ _ _ => None;
  image_open := fun _ => inr [2];
  generate_content := fun _ _ => inr text;
  os_remove := fun _ => None
|}.

(** The same world with a rasteriser that raises. *)
Definition broken_pdf_env (text : pystr) : env := {|
  now_stamp := py "20250101_120000";
  now_iso := py "2025-01-01T12:00:00";
  file_save := fun _ _ => None;
  convert_from_path := fun _ _ => inl (Exception (py "Unable to get page count."));
  image_save := fun _ _ _ => None;
  image_open := fun _ => inr [2];
  generate_content := fun _ _ => inr text;
  os_remove := fun _ => None
|}.

Definition empty_world : world := World ∅ [].

(** A request with one file part named [file]. *)
Definition upload_request (name : string) : request :=
  Request [ (py "file", Upload (py name) [37; 80; 68; 70]) ].

(** ** Auxiliary definitions of the proofs *)

(** Index of the first element that satisfies [p]. *)
Fixpoint first_index (p : N -> bool) (l : pystr) : option nat :=
  match l with
  | [] => None
  | c :: r => if p c then Some 0%nat else S <$> first_index p r
  end.

(** The comma that the loop has put in front after [m] digits of [n]. *)
Definition lead (n m : nat) : list N :=
  match m with
  | O => []
  | S _ => if bool_decide (0 < n - m)%nat && Nat.even m then [44] else []
  end.

(** The first success of [f] on [m], [m - 1], ..., [0]. *)
Fixpoint try_down {A : Type} (f : nat -> option A) (m : nat) : option A :=
  match f m with
  | Some r => Some r
  | None =>
    match m with
    | O => None
    | S m' => try_down f m'
    end
  end.

(** How many characters a greedy repetition takes at most. *)
Fixpoint greedy_run (p : N -> bool) (hi : option nat) (rest : list N) (count : nat) : nat :=
  match rest with
  | c :: r => if p c && below hi count then S (greedy_run p hi r (S count)) else O
  | [] => O
  end.

Section RecordSpecs.
Context {R : Runtime}.





End RecordSpecs.

(** Name the values of a record literal, so that looking a key up computes
    on the keys alone. *)
Ltac name_values :=
  repeat match goal with
         | |- context [ (_, PyStr ?s) :: _ ] =>
           tryif is_var s then fail else (let x := fresh "s" in set (x := s) in *; clearbody x)
         | |- context [ (_, ?v) :: _ ] =>
           lazymatch v with
           | PyStr _ => fail
           | _ => tryif is_var v then fail
                  else (let x := fresh "v" in set (x := v) in *; clearbody x)
           end
         end.

Ltac lookup_key := name_values; vm_compute; reflexivity.




Section AddressParts.
Context {R : Runtime}.

(** A labelled part as the code appends it. *)
Definition labelled_part (label : string) (v : pyval) : list pyval :=
  if py_truthy v then [PyStr (py label ++ py_str v)] else [].

(** A part that is appended as it is. *)
Definition plain_part (v : pyval) : list pyval := if py_truthy v then [v] else [].

End AddressParts.


Section SampleResponses.
#[local] Existing Instance sample_runtime.

(** A response with a floor, a road and a locality. *)
Definition sample_gst_response : pydict :=
  [ (py "floor_number", PyStr (py "2")); (py "premises_name", PyStr (py ""));
    (py "road_street", PyStr (py "MG Road")); (py "locality", PyStr (py "Indiranagar")) ].

End SampleResponses.

(** The definitions of the handler monad, unfolded. *)
Ltac unfold_handler :=
  unfold process, process_body, try_except, server_error, file_save_to, convert, page_save,
    remove, extract, first_page, call, check, create, delete, lift, raise,
    mbind, M_bind, mret, M_ret in *.

(** One case split on the outcome of the next collaborator call. *)
Ltac handler_step run :=
  match goal with
  | |- context [file_save ?e ?f ?p] => destruct (file_save e f p) eqn:?
  | |- context [is_pdf ?p] => destruct (is_pdf p) eqn:?
  | |- context [convert_from_path ?e ?p ?d] => destruct (convert_from_path e p d) eqn:?
  | |- context [@lookup nat _ _ _ 0%nat ?a] => destruct (a !! 0%nat) eqn:?
  | |- context [image_save ?e ?a ?p ?f] => destruct (image_save e a p f) eqn:?
  | |- context [run ?e ?p] => destruct (run e p) eqn:?
  | |- context [os_remove ?e ?p] => destruct (os_remove e p) eqn:?
  | |- context [no_data ?o] => destruct (no_data o) eqn:?
  end; cbn [fs calls fst snd app] in *.

Ltac handler_cases run := repeat handler_step run.

(** Enter the [try] suite of a request that carries a named file. *)
Ltac enter_handler Hfile Hname :=
  unfold_handler; rewrite Hfile; rewrite (bool_decide_eq_false_2 _ Hname);
  cbn [fs calls fst snd app].

(** ** Auxiliary definitions of the further properties *)

Section Answers.
Context {R : Runtime}.

(** The three normalisers are one function of the document type and the
    record builder. *)
Definition opens_then_normalises (doc : doc_type)
    (record : list N -> pyval -> option pydict)
    (run : env -> list N -> exn + option pydict) : Prop :=
  forall e path,
    run e path = match image_open e path with
                 | inl x => inl x
                 | inr img => inr (normalise e doc record img)
                 end.

(** What a handler answers to the outcome of its normaliser. *)
Definition answer (w0 : wording) (data : option pydict) : response :=
  match data with
  | Some d => Response 200 (success_body (success_message w0) d)
  | None => Response 500 (error_body (py "Extraction failed") (failure_message w0))
  end.

End Answers.

(** The two answers, by whether the normaliser returned a record. *)
Ltac answer_by_data Hne :=
  match goal with
  | |- context [no_data ?o] =>
    let d := fresh "d" in
    let Hn := fresh "Hn" in
    destruct o as [d|] eqn:Hn;
    [ pose proof (Hne _ Hn); destruct d; [done|]
    | ];
    cbv beta iota delta [no_data negb py_truthy]; rewrite <- ?(assoc_L (++)); reflexivity
  end.

(** A world in which the image cannot be opened. *)
Definition unreadable_env : env := {|
  now_stamp := py "20250101_120000";
  now_iso := py "2025-01-01T12:00:00";
  file_save := fun _ _ => None;
  convert_from_path := fun _ _ => inr [[1]];
  image_save := fun _ _ _ => None;
  image_open := fun _ => inl (Exception (py "cannot identify image file"));
  generate_content := fun _ _ => inr (py "{}");
  os_remove := fun _ => None
|}.

(** A world in which the call to the service raises. *)
Definition offline_env : env := {|
  now_stamp := py "20250101_120000";
  now_iso := py "2025-01-01T12:00:00";
  file_save := fun _ _ => None;
  convert_from_path := fun _ _ => inr [[1]];
  image_save := fun _ _ _ => None;
  image_open := fun _ => inr [2];
  generate_content := fun _ _ => inl (Exception (py "503 service unavailable"));
  os_remove := fun _ => None
|}.

(** A world in which the rasteriser finds no page. *)
Definition blank_pdf_env : env := {|
  now_stamp := py "20250101_120000";
  now_iso := py "2025-01-01T12:00:00";
  file_save := fun _ _ => None;
  convert_from_path := fun _ _ => inr [];
  image_save := fun _ _ _ => None;
  image_open := fun _ => inr [2];
  generate_content := fun _ _ => inr (py "{}");
  os_remove := fun _ => None
|}.

(** * Theorems *)

(** ** Regular expressions *)

Section RegexFacts.
Context {R : Runtime}.

Lemma match_at_class (s : pystr) (p : N -> bool) (i : nat) :
  match_at s (RClass p) i =
    match s !! i with
    | Some c => if p c then Some (S i, None) else None
    | None => None
    end.
Proof. reflexivity. Qed.

Lemma search_from_class (s : pystr) (p : N -> bool) (n i : nat) :
  n = S (length (drop i s)) ->
  search_from s (RClass p) n i =
    (fun k => ((i + k)%nat, (S (i + k), None))) <$> first_index p (drop i s).
Proof.
  revert i. induction n as [|n IH]; intros i Hn; [lia|].
  simpl. rewrite match_at_class.
  destruct (drop i s) as [|c l] eqn:Hd.
  - assert (s !! i = None) as ->.
    { apply lookup_ge_None. apply (f_equal length) in Hd. rewrite length_drop in Hd.
      simpl in Hd. lia. }
    simpl in Hn. destruct n; [reflexivity|lia].
  - assert (s !! i = Some c) as ->.
    { pose proof (lookup_drop s i 0) as H. rewrite Nat.add_0_r in H.
      rewrite <- H, Hd. reflexivity. }
    assert (s !! i = Some c) as Hi.
    { pose proof (lookup_drop s i 0) as H. rewrite Nat.add_0_r in H.
      rewrite <- H, Hd. reflexivity. }
    assert (drop (S i) s = l) as Hd'.
    { apply drop_S in Hi. rewrite Hd in Hi. congruence. }
    simpl. destruct (p c).
    + simpl. rewrite Nat.add_0_r. reflexivity.
    + rewrite IH by (rewrite Hd'; simpl in Hn; lia).
      rewrite Hd'. destruct (first_index p l); simpl; [|reflexivity].
      repeat f_equal; lia.
Qed.

Lemma first_index_None (p : N -> bool) (l : list N) :
  first_index p l = None -> List.filter (fun c => negb (p c)) l = l.
Proof.
  induction l as [|c l IH]; simpl; [reflexivity|].
  destruct (p c); simpl; [discriminate|].
  destruct (first_index p l); simpl; [discriminate|].
  intros _. rewrite IH; reflexivity.
Qed.

Lemma first_index_Some (p : N -> bool) (l : list N) (k : nat) :
  first_index p l = Some k ->
  (k < length l)%nat
  /\ List.filter (fun c => negb (p c)) l
     = take k l ++ List.filter (fun c => negb (p c)) (drop (S k) l).
Proof.
  revert k. induction l as [|c l IH]; simpl; intros k; [discriminate|].
  destruct (p c) eqn:Hp; simpl.
  - intros [= <-]. simpl. split; [lia|reflexivity].
  - destruct (first_index p l) as [k'|]; simpl; [|discriminate].
    intros [= <-]. destruct (IH k' eq_refl) as [Hlt ->]. simpl. split; [lia|reflexivity].
Qed.

Lemma sub_from_class (s : list N) (p : N -> bool) (fuel pos : nat) :
  (pos <= length s)%nat -> (length s - pos < fuel)%nat ->
  sub_from s fuel (RClass p) [] pos = List.filter (fun c => negb (p c)) (drop pos s).
Proof.
  revert pos. induction fuel as [|fuel IH]; intros pos Hpos Hfuel; [lia|].
  simpl. unfold sre_search.
  rewrite search_from_class by (rewrite length_drop; lia).
  destruct (first_index p (drop pos s)) as [k|] eqn:Hk; simpl.
  - apply first_index_Some in Hk as [Hlt Hf]. rewrite length_drop in Hlt.
    rewrite bool_decide_eq_false_2 by lia.
    rewrite IH by lia. rewrite Hf, drop_drop. unfold substr.
    replace (pos + k - pos)%nat with k by lia. simpl.
    replace (pos + S k)%nat with (S (pos + k)) by lia. reflexivity.
  - symmetry. apply first_index_None, Hk.
Qed.

Lemma re_sub_class (s : list N) (p : N -> bool) :
  re_sub s (RClass p) [] = List.filter (fun c => negb (p c)) s.
Proof. unfold re_sub. rewrite sub_from_class by lia. reflexivity. Qed.

End RegexFacts.

(** ** The currency formatter *)

Section Grouping.
Context {R : Runtime}.

Lemma join_cons_cons (sep x y : list N) (l : list (list N)) :
  join sep (x :: y :: l) = x ++ sep ++ join sep (y :: l).
Proof. reflexivity. Qed.

Lemma join_snoc (sep x : list N) (l : list (list N)) :
  l <> [] -> join sep (l ++ [x]) = join sep l ++ sep ++ x.
Proof.
  induction l as [|a l IH]; [done|]. intros _.
  destruct l as [|b l].
  - reflexivity.
  - change ((a :: b :: l) ++ [x]) with (a :: b :: (l ++ [x])).
    rewrite !join_cons_cons. change (b :: l ++ [x]) with ((b :: l) ++ [x]).
    rewrite IH by done. rewrite <- !app_assoc. reflexivity.
Qed.

Lemma pairs_snoc_aux (c : N) (n : nat) (l : list N) :
  (length l <= n)%nat ->
  pairs (l ++ [c]) =
    if Nat.even (length l) then pairs l ++ [[c]]
    else match reverse (pairs l) with
         | g :: gs => reverse gs ++ [g ++ [c]]
         | [] => [[c]]
         end.
Proof.
  revert l. induction n as [|n IH]; intros l Hl.
  - destruct l; [reflexivity|simpl in Hl; lia].
  - destruct l as [|a [|b r]]; [reflexivity|reflexivity|].
    simpl in Hl. change ((a :: b :: r) ++ [c]) with (a :: b :: (r ++ [c])).
    change (pairs (a :: b :: r ++ [c])) with ([a; b] :: pairs (r ++ [c])).
    rewrite IH by lia.
    change (length (a :: b :: r)) with (S (S (length r))).
    change (Nat.even (S (S (length r)))) with (Nat.even (length r)).
    destruct (Nat.even (length r)) eqn:He; [reflexivity|].
    change (pairs (a :: b :: r)) with ([a; b] :: pairs r).
    rewrite reverse_cons.
    destruct (reverse (pairs r)) as [|g gs] eqn:Hr.
    + apply (f_equal reverse) in Hr. rewrite reverse_involutive in Hr.
      destruct r as [|x [|y r']]; discriminate.
    + simpl. rewrite reverse_app. reflexivity.
Qed.

Lemma pairs_snoc (c : N) (l : list N) :
  pairs (l ++ [c]) =
    if Nat.even (length l) then pairs l ++ [[c]]
    else match reverse (pairs l) with
         | g :: gs => reverse gs ++ [g ++ [c]]
         | [] => [[c]]
         end.
Proof. apply (pairs_snoc_aux c (length l)). lia. Qed.

Lemma pairs_from_right_cons (c : N) (l : list N) :
  pairs_from_right (c :: l) =
    if Nat.even (length l) then [c] :: pairs_from_right l
    else match pairs_from_right l with
         | g :: gs => (c :: g) :: gs
         | [] => [[c]]
         end.
Proof.
  unfold pairs_from_right. rewrite reverse_cons, pairs_snoc, length_reverse.
  destruct (Nat.even (length l)).
  - rewrite List.map_app, reverse_app. reflexivity.
  - destruct (reverse (pairs (reverse l))) as [|g gs] eqn:Hr.
    + apply (f_equal reverse) in Hr. rewrite reverse_involutive in Hr.
      rewrite Hr. reflexivity.
    + apply (f_equal reverse) in Hr. rewrite reverse_involutive, reverse_cons in Hr.
      rewrite Hr. rewrite !List.map_app, !reverse_app. simpl.
      rewrite reverse_app. reflexivity.
Qed.

Lemma pairs_from_right_nil : pairs_from_right [] = [].
Proof. reflexivity. Qed.

Lemma pairs_from_right_nonempty (l : list N) : l <> [] -> pairs_from_right l <> [].
Proof.
  destruct l as [|c l]; [done|]. intros _. rewrite pairs_from_right_cons.
  destruct (Nat.even (length l)); [done|]. destruct (pairs_from_right l); done.
Qed.

Lemma group_loop (rem : list N) (m : nat) :
  (m <= length rem)%nat ->
  fold_left (group_step rem) (reverse (seq (length rem - m) m)) []
  = lead (length rem) m ++ join [44] (pairs_from_right (drop (length rem - m) rem)).
Proof.
  induction m as [|m IH]; intros Hm.
  - rewrite Nat.sub_0_r, drop_all. reflexivity.
  - replace (seq (length rem - S m) (S m))
      with ((length rem - S m)%nat :: seq (length rem - m) m)
      by (simpl; f_equal; f_equal; lia).
    rewrite reverse_cons, fold_left_app, IH by lia. cbn [fold_left].
    destruct (lookup_lt_is_Some_2 rem (length rem - S m)) as [c Hc]; [lia|].
    unfold group_step. rewrite Hc.
    pose proof (drop_S _ _ _ Hc) as Hd.
    replace (S (length rem - S m)) with (length rem - m)%nat in Hd by lia.
    rewrite Hd, pairs_from_right_cons.
    set (l := drop (length rem - m) rem) in *.
    assert (length l = m) as Hl by (unfold l; rewrite length_drop; lia).
    rewrite Hl.
    replace (length rem - (length rem - S m))%nat with (S m) by lia.
    assert (lead (length rem) (S m)
            = if bool_decide (0 < length rem - S m)%nat
                 && bool_decide (S m `mod` 2 = 0)%nat then [44] else []) as ->.
    { unfold lead. destruct (bool_decide (0 < length rem - S m)%nat); [|reflexivity].
      rewrite !andb_true_l. destruct (Nat.even (S m)) eqn:He.
      - apply Nat.even_spec in He. destruct He as [k Hk].
        rewrite bool_decide_eq_true_2; [reflexivity|]. rewrite Hk.
        rewrite Nat.mul_comm. apply Nat.Div0.mod_mul.
      - rewrite bool_decide_eq_false_2; [reflexivity|]. intros Hmod.
        apply Nat.Div0.mod_divides in Hmod as [k Hk].
        assert (Nat.even (S m) = true) as He' by (apply Nat.even_spec; exists k; lia).
        congruence. }
    assert (c :: lead (length rem) m ++ join [44] (pairs_from_right l)
            = join [44] (if Nat.even m then [c] :: pairs_from_right l
                         else match pairs_from_right l with
                              | g :: gs => (c :: g) :: gs
                              | [] => [[c]]
                              end)) as Hstep.
    { unfold lead. destruct m as [|m'].
      - destruct l; [reflexivity|discriminate].
      - rewrite (bool_decide_eq_true_2 (0 < length rem - S m')%nat) by lia.
        rewrite andb_true_l.
        destruct (Nat.even (S m')).
        + pose proof (pairs_from_right_nonempty l) as Hne.
          destruct (pairs_from_right l) as [|g gs].
          * exfalso. apply Hne; [|reflexivity]. destruct l; [discriminate|done].
          * reflexivity.
        + destruct (pairs_from_right l) as [|g [|g' gs]]; reflexivity. }
    destruct (bool_decide (0 < length rem - S m)%nat && bool_decide (S m `mod` 2 = 0)%nat);
      simpl; rewrite Hstep; reflexivity.
Qed.

Lemma indian_digits_groups (d : list N) : indian_digits d = join [44] (indian_groups d).
Proof.
  unfold indian_digits, indian_groups. case_bool_decide as Hlen; [|reflexivity].
  set (rem := take (length d - 3) d).
  assert (length rem = length d - 3)%nat as Hrem by (unfold rem; rewrite length_take; lia).
  pose proof (group_loop rem (length rem) (Nat.le_refl _)) as Hloop.
  rewrite Nat.sub_diag in Hloop. rewrite Hloop. simpl drop.
  assert (lead (length rem) (length rem) = []) as ->.
  { unfold lead. destruct (length rem); [reflexivity|]. rewrite Nat.sub_diag. reflexivity. }
  rewrite join_snoc; [reflexivity|].
  apply pairs_from_right_nonempty. intros Hnil. rewrite Hnil in Hrem. simpl in Hrem. lia.
Qed.

End Grouping.

Section Currency.
Context {R : Runtime}.

Lemma concat_pairs_from_right (l : list N) : concat (pairs_from_right l) = l.
Proof.
  induction l as [|c l IH]; [reflexivity|].
  rewrite pairs_from_right_cons. destruct (Nat.even (length l)).
  - simpl. rewrite IH. reflexivity.
  - destruct (pairs_from_right l) as [|g gs]; simpl in *; [subst; reflexivity|].
    rewrite IH. reflexivity.
Qed.

(** The groups of a number are its digits. *)
Lemma concat_indian_groups (d : list N) : concat (indian_groups d) = d.
Proof.
  unfold indian_groups. case_bool_decide; simpl; [|apply app_nil_r].
  rewrite concat_app, concat_pairs_from_right. simpl. rewrite app_nil_r.
  apply take_drop.
Qed.

(** The shape of pairs counted from the right: every group but the first
    has two digits, the first has two when the number of digits is even and
    one otherwise. *)
Lemma pairs_from_right_shape (l : list N) :
  match pairs_from_right l with
  | [] => l = []
  | g :: gs =>
    length g = (if Nat.even (length l) then 2 else 1)%nat
    /\ Forall (fun g' => length g' = 2%nat) gs
  end.
Proof.
  induction l as [|c l IH]; [reflexivity|].
  rewrite pairs_from_right_cons. simpl length. rewrite Nat.even_succ, <- Nat.negb_even.
  destruct (Nat.even (length l)) eqn:He; simpl.
  - split; [reflexivity|]. destruct (pairs_from_right l) as [|g gs]; [constructor|].
    destruct IH as [Hg Hgs]. constructor; assumption.
  - destruct (pairs_from_right l) as [|g gs].
    + subst l. discriminate.
    + destruct IH as [Hg Hgs]. simpl. rewrite Hg. split; [reflexivity|assumption].
Qed.

Lemma of_uint_acc_digits (d : Decimal.uint) (acc : positive) :
  fold_left (fun a c => 10 * a + decimal_value c) (digits_of_uint d) (Npos acc)
  = Npos (Pos.of_uint_acc d acc).
Proof.
  revert acc. induction d; intros acc; simpl; [reflexivity|..];
    rewrite <- IHd; f_equal; unfold decimal_value; simpl; lia.
Qed.

Lemma py_int_digits_of_uint (d : Decimal.uint) : py_int (digits_of_uint d) = N.of_uint d.
Proof.
  unfold py_int, N.of_uint. induction d; simpl; [reflexivity|exact IHd|..];
    apply of_uint_acc_digits.
Qed.

(** [str] of a number is a decimal numeral of it: [int] reads it back. *)
Lemma py_int_str_of_N (n : N) : py_int (str_of_N n) = n.
Proof. unfold str_of_N. rewrite py_int_digits_of_uint. apply Unsigned.of_to. Qed.

Lemma filter_negb_negb (p : N -> bool) (l : list N) :
  List.filter (fun c => negb (negb (p c))) l = List.filter p l.
Proof.
  induction l as [|c l IH]; simpl; [reflexivity|].
  rewrite negb_involutive, IH. reflexivity.
Qed.


End Currency.

(** ** The regular expression engine *)

Section Engine.
Context {R : Runtime}.

Lemma try_down_ext {A : Type} (f g : nat -> option A) (n : nat) :
  (forall m, (m <= n)%nat -> f m = g m) -> try_down f n = try_down g n.
Proof.
  induction n as [|n IH]; intros H; simpl.
  - rewrite H by lia. reflexivity.
  - rewrite H by lia. rewrite IH by (intros; apply H; lia). reflexivity.
Qed.

Lemma try_down_S {A : Type} (f : nat -> option A) (n : nat) :
  try_down f (S n) =
    match try_down (fun m => f (S m)) n with
    | Some r => Some r
    | None => f 0%nat
    end.
Proof.
  induction n as [|n IH].
  - simpl. destruct (f 1%nat); [reflexivity|]. destruct (f 0%nat); reflexivity.
  - change (try_down f (S (S n)))
      with (match f (S (S n)) with Some r => Some r | None => try_down f (S n) end).
    rewrite IH. simpl. destruct (f (S (S n))); reflexivity.
Qed.

Lemma try_down_Some {A : Type} (f : nat -> option A) (n : nat) (r : A) :
  try_down f n = Some r -> exists m, (m <= n)%nat /\ f m = Some r.
Proof.
  induction n as [|n IH]; simpl.
  - destruct (f 0%nat) eqn:H0; [|discriminate]. intros [= <-]. exists 0%nat. split; [lia|done].
  - destruct (f (S n)) eqn:HS.
    + intros [= <-]. exists (S n). split; [lia|done].
    + intros H. destruct (IH H) as (m & Hm & Hf). exists m. split; [lia|done].
Qed.

Lemma try_down_top {A : Type} (f : nat -> option A) (n : nat) (r : A) :
  f n = Some r -> try_down f n = Some r.
Proof. intros H. destruct n; simpl; rewrite H; reflexivity. Qed.

Lemma try_down_None {A : Type} (f : nat -> option A) (n : nat) :
  (forall m, (m <= n)%nat -> f m = None) -> try_down f n = None.
Proof.
  induction n as [|n IH]; intros H; simpl.
  - rewrite H by lia. reflexivity.
  - rewrite H by lia. apply IH. intros; apply H; lia.
Qed.

(** A greedy repetition tries the longest run first and then gives back one
    character at a time. *)
Lemma rep_class_try_down (p : N -> bool) (lo : nat) (hi : option nat)
    (k : nat -> option (nat * option (nat * nat))) (rest : list N) (count i : nat) :
  rep_class p lo hi k rest count i =
    try_down (fun m => if bool_decide (lo <= count + m)%nat then k (i + m)%nat else None)
      (greedy_run p hi rest count).
Proof.
  revert count i. induction rest as [|c rest IH]; intros count i.
  - simpl. rewrite !Nat.add_0_r. destruct (bool_decide _); [|reflexivity].
    destruct (k i); reflexivity.
  - simpl. destruct (p c && below hi count).
    + rewrite try_down_S, IH. rewrite !Nat.add_0_r.
      erewrite try_down_ext; [reflexivity|].
      intros m _. simpl. replace (count + S m)%nat with (S (count + m)) by lia.
      replace (i + S m)%nat with (S (i + m)) by lia. reflexivity.
    + simpl. rewrite !Nat.add_0_r. destruct (bool_decide _); [|reflexivity].
      destruct (k i); reflexivity.
Qed.

Lemma greedy_run_take (p : N -> bool) (hi : option nat) (rest : list N) (count m : nat) :
  (m <= greedy_run p hi rest count)%nat ->
  forallb p (take m rest) = true /\ length (take m rest) = m.
Proof.
  revert count m. induction rest as [|c rest IH]; intros count m; simpl.
  - intros Hm. assert (m = 0%nat) as -> by lia. done.
  - destruct (p c) eqn:Hp; simpl.
    + destruct (below hi count); simpl.
      * destruct m as [|m]; [done|]. intros Hm. simpl. rewrite Hp. simpl.
        destruct (IH (S count) m) as [H1 H2]; [lia|]. rewrite H1, H2. done.
      * intros Hm. assert (m = 0%nat) as -> by lia. done.
    + intros Hm. assert (m = 0%nat) as -> by lia. done.
Qed.

Lemma greedy_run_bounded (p : N -> bool) (h : nat) (rest : list N) (count : nat) :
  (greedy_run p (Some h) rest count <= h - count)%nat.
Proof.
  revert count. induction rest as [|c rest IH]; intros count; simpl; [lia|].
  destruct (p c); simpl; [|lia]. case_bool_decide; [|lia].
  specialize (IH (S count)). lia.
Qed.

Lemma greedy_run_unbounded (p : N -> bool) (run tail : list N) (count : nat) :
  forallb p run = true ->
  match tail with [] => True | c :: _ => p c = false end ->
  greedy_run p None (run ++ tail) count = length run.
Proof.
  revert count. induction run as [|c run IH]; intros count Hrun Htail; simpl.
  - destruct tail as [|c tail]; [reflexivity|]. simpl. rewrite Htail. reflexivity.
  - simpl in Hrun. apply andb_true_iff in Hrun as [Hc Hrun]. rewrite Hc. simpl.
    rewrite IH by assumption. reflexivity.
Qed.

Lemma greedy_run_exact (p : N -> bool) (h : nat) (rest : list N) (count : nat) :
  forallb p (take h rest) = true -> length (take h rest) = h ->
  greedy_run p (Some (count + h)%nat) rest count = h.
Proof.
  revert rest count. induction h as [|h IH]; intros rest count Hall Hlen.
  - destruct rest as [|c rest]; [reflexivity|]. simpl.
    rewrite Nat.add_0_r. rewrite (bool_decide_eq_false_2 (count < count)%nat) by lia.
    rewrite andb_false_r. reflexivity.
  - destruct rest as [|c rest]; [simpl in Hlen; lia|]. simpl in *.
    apply andb_true_iff in Hall as [Hc Hall]. rewrite Hc.
    rewrite bool_decide_eq_true_2 by lia. simpl.
    replace (count + S h)%nat with (S count + h)%nat by lia.
    rewrite IH; [reflexivity|assumption|lia].
Qed.

(** ** The search *)

Lemma search_from_Some (s : list N) (r : regex) (n i j : nat)
    (res : nat * option (nat * nat)) :
  search_from s r n i = Some (j, res) ->
  (i <= j < i + n)%nat /\ match_at s r j = Some res
  /\ forall j', (i <= j' < j)%nat -> match_at s r j' = None.
Proof.
  revert i. induction n as [|n IH]; intros i; simpl; [discriminate|].
  destruct (match_at s r i) as [res'|] eqn:Hm.
  - intros [= <- <-]. repeat split; [lia|lia|assumption|intros; lia].
  - intros H. destruct (IH _ H) as (Hj & Hres & Hbefore).
    repeat split; [lia|lia|assumption|].
    intros j' Hj'. destruct (decide (j' = i)) as [->|]; [assumption|]. apply Hbefore. lia.
Qed.

Lemma search_from_None (s : list N) (r : regex) (n i : nat) :
  search_from s r n i = None ->
  forall j, (i <= j < i + n)%nat -> match_at s r j = None.
Proof.
  revert i. induction n as [|n IH]; intros i; simpl; [intros; lia|].
  destruct (match_at s r i) as [res'|] eqn:Hm; [discriminate|].
  intros H j Hj. destruct (decide (j = i)) as [->|]; [assumption|]. apply (IH _ H). lia.
Qed.

(** [findall] starts with the leftmost match, and is empty without one. *)
Lemma re_findall_first (s : list N) (r : regex) :
  match sre_search s r 0 with
  | Some m => exists rest, re_findall s r = match_item s r m :: rest
  | None => re_findall s r = []
  end.
Proof.
  unfold re_findall. simpl. destruct (sre_search s r 0) as [[i [j g]]|]; [|reflexivity].
  eexists. reflexivity.
Qed.

End Engine.

(** ** The MICR parser *)

Section Micr.
Context {R : Runtime}.

Lemma decimal_is_no_space `{!UnicodeLaws R} (c : N) :
  is_decimal c = true -> is_space c = false.
Proof.
  unfold is_decimal, is_space. destruct (c <? 128) eqn:Hc.
  - intros H. apply andb_true_iff in H as [H1 H2].
    apply N.leb_le in H1, H2.
    apply orb_false_iff. split; apply andb_false_iff.
    + right. apply N.leb_gt. lia.
    + right. apply N.leb_gt. lia.
  - intros H. apply bool_decide_eq_true in H as [v Hv].
    exact (decimal_not_space c v Hv).
Qed.

Lemma space_is_no_decimal `{!UnicodeLaws R} (c : N) :
  is_space c = true -> is_decimal c = false.
Proof.
  intros Hs. destruct (is_decimal c) eqn:Hd; [|reflexivity].
  apply decimal_is_no_space in Hd. congruence.
Qed.

Lemma glyph_is_no_space `{!UnicodeLaws R} (c : N) :
  micr_glyph c = true -> is_space c = false.
Proof.
  unfold micr_glyph. intros H. apply orb_true_iff in H as [H|H]; apply N.eqb_eq in H; subst c.
  - exact on_us_not_space.
  - exact transit_not_space.
Qed.

Lemma glyph_is_no_decimal `{!UnicodeLaws R} (c : N) :
  micr_glyph c = true -> is_decimal c = false.
Proof.
  unfold micr_glyph. intros H. apply orb_true_iff in H as [H|H]; apply N.eqb_eq in H; subst c;
    unfold is_decimal; simpl.
  - rewrite on_us_not_decimal. reflexivity.
  - rewrite transit_not_decimal. reflexivity.
Qed.

Lemma lookup_of_drop (s : list N) (i : nat) (c : N) (l : list N) :
  drop i s = c :: l -> s !! i = Some c /\ drop (S i) s = l.
Proof.
  intros Hd.
  assert (s !! i = Some c) as Hi.
  { pose proof (lookup_drop s i 0) as H. rewrite Nat.add_0_r in H.
    rewrite <- H, Hd. reflexivity. }
  split; [assumption|]. apply drop_S in Hi. congruence.
Qed.

Lemma drop_of_app (s : list N) (i : nat) (a b : list N) :
  drop i s = a ++ b -> drop (i + length a) s = b.
Proof. intros H. rewrite <- drop_drop, H. apply drop_app_length. Qed.

(** The segment pattern spelled out: a glyph, three greedy repetitions, a
    glyph. *)
Lemma match_at_micr (s : list N) (i : nat) :
  match_at s MICR_SEGMENT i =
    match s !! i with
    | Some c =>
      if micr_glyph c then
        rep_class is_space 0 None
          (fun j =>
             rep_class is_decimal 1 None
               (fun j' =>
                  rep_class is_space 0 None
                    (fun j'' =>
                       match s !! j'' with
                       | Some c' =>
                         if micr_glyph c' then Some (S j'', Some (j, j')) else None
                       | None => None
                       end)
                    (drop j' s) 0 j')
               (drop j s) 0 j)
          (drop (S i) s) 0 (S i)
      else None
    | None => None
    end.
Proof. reflexivity. Qed.

Lemma micr_match_sound (s : list N) (i e : nat) (g : option (nat * nat)) :
  match_at s MICR_SEGMENT i = Some (e, g) ->
  exists a b, g = Some (a, b) /\ bounded_at s i (substr s a b).
Proof.
  rewrite match_at_micr.
  destruct (s !! i) as [c|] eqn:Hi; [|discriminate].
  destruct (micr_glyph c) eqn:Hg; [|discriminate].
  rewrite rep_class_try_down. intros H.
  apply try_down_Some in H as (m1 & Hm1 & H).
  rewrite bool_decide_eq_true_2 in H by lia.
  rewrite rep_class_try_down in H. apply try_down_Some in H as (m2 & Hm2 & H).
  case_bool_decide as Hone; [|discriminate].
  rewrite rep_class_try_down in H. apply try_down_Some in H as (m3 & Hm3 & H).
  rewrite bool_decide_eq_true_2 in H by lia.
  destruct (s !! (S i + m1 + m2 + m3)%nat) as [c'|] eqn:Hi'; [|discriminate].
  destruct (micr_glyph c') eqn:Hg'; [|discriminate].
  injection H as <- <-.
  exists (S i + m1)%nat, (S i + m1 + m2)%nat. split; [reflexivity|].
  apply greedy_run_take in Hm1 as [Hs1 Hl1], Hm2 as [Hs2 Hl2], Hm3 as [Hs3 Hl3].
  unfold substr. replace (S i + m1 + m2 - (S i + m1))%nat with m2 by lia.
  exists c, (take m1 (drop (S i) s)), (take m3 (drop (S i + m1 + m2) s)), c',
    (drop (S (S i + m1 + m2 + m3)) s).
  repeat split; try assumption.
  - rewrite (drop_S _ _ _ Hi). f_equal.
    rewrite <- (take_drop m1 (drop (S i) s)) at 1. f_equal.
    rewrite drop_drop.
    rewrite <- (take_drop m2 (drop (S i + m1) s)) at 1. f_equal.
    rewrite drop_drop.
    rewrite <- (take_drop m3 (drop (S i + m1 + m2) s)) at 1. f_equal.
    rewrite drop_drop. apply drop_S. assumption.
  - intros Hnil. rewrite Hnil in Hl2. simpl in Hl2. lia.
Qed.

Lemma micr_match_complete `{!UnicodeLaws R} (s : list N) (i : nat) (d : list N) :
  bounded_at s i d ->
  exists e a b, match_at s MICR_SEGMENT i = Some (e, Some (a, b)) /\ substr s a b = d.
Proof.
  intros (g1 & ws1 & ws2 & g2 & rest & Hd & Hg1 & Hg2 & Hws1 & Hws2 & Hdec & Hne).
  apply lookup_of_drop in Hd as [Hi Hd1].
  pose proof (drop_of_app _ _ _ _ Hd1) as Hd2.
  pose proof (drop_of_app _ _ _ _ Hd2) as Hd3.
  pose proof (drop_of_app _ _ _ _ Hd3) as Hd4.
  apply lookup_of_drop in Hd4 as [Hi4 _].
  exists (S (S i + length ws1 + length d + length ws2)), (S i + length ws1)%nat,
    (S i + length ws1 + length d)%nat.
  split.
  - rewrite match_at_micr, Hi, Hg1.
    rewrite rep_class_try_down, Hd1, greedy_run_unbounded; [|assumption|].
    2:{ destruct d as [|c0 d']; [done|]. simpl in *.
        apply andb_true_iff in Hdec as [Hc0 _]. apply decimal_is_no_space, Hc0. }
    apply try_down_top. rewrite bool_decide_eq_true_2 by lia.
    rewrite rep_class_try_down, Hd2, greedy_run_unbounded; [|assumption|].
    2:{ destruct ws2 as [|c0 ws2']; simpl in *.
        - apply glyph_is_no_decimal, Hg2.
        - apply andb_true_iff in Hws2 as [Hc0 _]. apply space_is_no_decimal, Hc0. }
    apply try_down_top. rewrite bool_decide_eq_true_2.
    2:{ destruct d; [done|simpl; lia]. }
    rewrite rep_class_try_down, Hd3, greedy_run_unbounded; [|assumption|].
    2:{ simpl. apply glyph_is_no_space, Hg2. }
    apply try_down_top. rewrite bool_decide_eq_true_2 by lia.
    rewrite Hi4, Hg2. reflexivity.
  - unfold substr. replace (S i + length ws1 + length d - (S i + length ws1))%nat
      with (length d) by lia.
    rewrite Hd2. apply take_app_length.
Qed.

(** The six-digit pattern spelled out. *)
Lemma match_at_six (s : list N) (i : nat) :
  match_at s SIX_DIGITS i =
    if at_boundary s i then
      rep_class is_decimal 6 (Some 6%nat)
        (fun j => if at_boundary s j then Some (j, None) else None) (drop i s) 0 i
    else None.
Proof. reflexivity. Qed.

Lemma six_match_sound (s : list N) (i e : nat) (g : option (nat * nat)) :
  match_at s SIX_DIGITS i = Some (e, g) ->
  e = (i + 6)%nat /\ g = None /\ token_at s i (substr s i e).
Proof.
  rewrite match_at_six. destruct (at_boundary s i) eqn:Hb; [|discriminate].
  rewrite rep_class_try_down. intros H. apply try_down_Some in H as (m & Hm & H).
  case_bool_decide as Hsix; [|discriminate].
  pose proof (greedy_run_bounded is_decimal 6 (drop i s) 0) as Hle.
  assert (m = 6%nat) as -> by lia.
  destruct (at_boundary s (i + 6)) eqn:Hb'; [|discriminate]. injection H as <- <-.
  apply greedy_run_take in Hm as [Hall Hlen].
  unfold substr. replace (i + 6 - i)%nat with 6%nat by lia.
  repeat split; assumption.
Qed.

Lemma six_match_complete (s : list N) (i : nat) (d : list N) :
  token_at s i d -> match_at s SIX_DIGITS i = Some ((i + 6)%nat, None) /\ substr s i (i + 6) = d.
Proof.
  intros (Htake & Hlen & Hall & Hb & Hb'). subst d.
  split.
  - rewrite match_at_six, Hb, rep_class_try_down.
    rewrite (greedy_run_exact is_decimal 6 (drop i s) 0) by assumption.
    apply try_down_top. rewrite bool_decide_eq_true_2 by lia. rewrite Hb'. reflexivity.
  - unfold substr. replace (i + 6 - i)%nat with 6%nat by lia. reflexivity.
Qed.

End Micr.

Section MicrTheorem.
Context {R : Runtime}.

Lemma bounded_at_inside (s : list N) (i : nat) (d : list N) :
  bounded_at s i d ->
  (i < length s)%nat /\ exists a b, s = a ++ d ++ b /\ d <> [] /\ forallb is_decimal d = true.
Proof.
  intros (g1 & ws1 & ws2 & g2 & rest & Hd & _ & _ & _ & _ & Hdec & Hne).
  split.
  - apply (f_equal length) in Hd. rewrite length_drop in Hd. simpl in Hd. lia.
  - exists (take i s ++ g1 :: ws1), (ws2 ++ g2 :: rest). split; [|done].
    rewrite <- (take_drop i s) at 1. rewrite Hd, <- !app_assoc. reflexivity.
Qed.

Lemma token_at_inside (s : list N) (i : nat) (d : list N) :
  token_at s i d ->
  (i < length s)%nat /\ exists a b, s = a ++ d ++ b /\ d <> [] /\ forallb is_decimal d = true.
Proof.
  intros (Htake & Hlen & Hall & _ & _). subst d. split.
  - rewrite length_take, length_drop in Hlen. lia.
  - exists (take i s), (drop 6 (drop i s)). split; [|split; [|assumption]].
    + rewrite take_drop, take_drop. reflexivity.
    + intros Hnil. rewrite Hnil in Hlen. discriminate.
Qed.

Lemma digits_inside (p : N -> bool) (a d b : list N) :
  d <> [] -> forallb p d = true -> List.filter p (a ++ d ++ b) <> [].
Proof.
  intros Hne Hall. rewrite !List.filter_app.
  destruct d as [|c d]; [done|]. simpl in *.
  apply andb_true_iff in Hall as [-> _]. intros H. apply app_eq_nil in H as [_ H].
  discriminate.
Qed.

(** C2.  On a MICR line [s], given a character database in which the two
    boundary glyphs are neither digits nor white space and no digit is white
    space: when [s] holds digits enclosed between two boundary glyphs (either
    glyph on either side, white space allowed next to the glyphs), the parser
    returns the digits of the leftmost such occurrence; when it holds none but
    holds a six-digit token between word boundaries, the leftmost such token;
    and the empty string when it holds neither, in particular when [s] has no
    digit.  It returns 343242 on the sample line, the lone token 123456 of a
    line without glyphs, and the empty string on a line of letters. *)
Theorem extract_cheque_number_from_micr_spec `{!UnicodeLaws R} (s : list N) :
  (forall i d, bounded_at s i d -> (forall j d', bounded_at s j d' -> (i <= j)%nat) ->
     extract_cheque_number_from_micr (PyStr s) = Some d)
  /\ ((forall i d, ~ bounded_at s i d) ->
      forall i d, token_at s i d -> (forall j d', token_at s j d' -> (i <= j)%nat) ->
        extract_cheque_number_from_micr (PyStr s) = Some d)
  /\ ((forall i d, ~ bounded_at s i d) -> (forall i d, ~ token_at s i d) ->
      extract_cheque_number_from_micr (PyStr s) = Some [])
  /\ (List.filter is_decimal s = [] -> extract_cheque_number_from_micr (PyStr s) = Some [])
  /\ extract_cheque_number_from_micr (PyStr (py "⑈343242⑈ 520002206⑆ 000860⑈ 24"))
     = Some (py "343242")
  /\ extract_cheque_number_from_micr (PyStr (py "A/C 123456 X")) = Some (py "123456")
  /\ extract_cheque_number_from_micr (PyStr (py "no digits")) = Some (py "").
Proof.
  assert (forall s' i d, bounded_at s' i d ->
            (forall j d', bounded_at s' j d' -> (i <= j)%nat) ->
            extract_cheque_number_from_micr (PyStr s') = Some d) as Hbounded.
  { clear s. intros s i d Hb Hleft.
    destruct (bounded_at_inside _ _ _ Hb) as [Hi _].
    destruct (micr_match_complete _ _ _ Hb) as (e & a & b & Hm & Hsub).
    unfold extract_cheque_number_from_micr. simpl py_truthy.
    rewrite bool_decide_eq_false_2 by (intros ->; simpl in Hi; lia). simpl negb. cbv iota.
    pose proof (re_findall_first s MICR_SEGMENT) as Hfirst.
    destruct (sre_search s MICR_SEGMENT 0) as [[j [e' g]]|] eqn:Hsearch.
    - unfold sre_search in Hsearch.
      apply search_from_Some in Hsearch as (Hj & Hm' & Hbefore).
      destruct (micr_match_sound _ _ _ _ Hm') as (a' & b' & -> & Hb').
      pose proof (Hleft _ _ Hb') as Hle.
      destruct (decide (i = j)) as [<-|Hne].
      + rewrite Hm in Hm'. injection Hm' as <- <- <-.
        destruct Hfirst as [rest ->]. simpl. rewrite Hsub. reflexivity.
      + rewrite Hbefore in Hm by lia. discriminate.
    - unfold sre_search in Hsearch.
      rewrite (search_from_None _ _ _ _ Hsearch i) in Hm by lia. discriminate. }
  assert ((forall i d, ~ bounded_at s i d) -> re_findall s MICR_SEGMENT = []) as Hnone.
  { intros Hno. pose proof (re_findall_first s MICR_SEGMENT) as Hfirst.
    destruct (sre_search s MICR_SEGMENT 0) as [[j [e' g]]|] eqn:Hsearch; [|assumption].
    unfold sre_search in Hsearch. apply search_from_Some in Hsearch as (_ & Hm & _).
    destruct (micr_match_sound _ _ _ _ Hm) as (a & b & _ & Hb). destruct (Hno _ _ Hb). }
  assert ((forall i d, ~ bounded_at s i d) ->
          forall i d, token_at s i d -> (forall j d', token_at s j d' -> (i <= j)%nat) ->
            extract_cheque_number_from_micr (PyStr s) = Some d) as Htoken.
  { intros Hno i d Ht Hleft.
    destruct (token_at_inside _ _ _ Ht) as [Hi _].
    destruct (six_match_complete _ _ _ Ht) as [Hm Hsub].
    unfold extract_cheque_number_from_micr. simpl py_truthy.
    rewrite bool_decide_eq_false_2 by (intros ->; simpl in Hi; lia). simpl negb. cbv iota.
    rewrite (Hnone Hno). simpl.
    pose proof (re_findall_first s SIX_DIGITS) as Hfirst.
    destruct (sre_search s SIX_DIGITS 0) as [[j [e' g]]|] eqn:Hsearch.
    - unfold sre_search in Hsearch.
      apply search_from_Some in Hsearch as (Hj & Hm' & Hbefore).
      destruct (six_match_sound _ _ _ _ Hm') as (-> & -> & Ht').
      pose proof (Hleft _ _ Ht') as Hle.
      destruct (decide (i = j)) as [<-|Hne].
      + destruct Hfirst as [rest ->]. simpl. rewrite Hsub. reflexivity.
      + rewrite Hbefore in Hm by lia. discriminate.
    - unfold sre_search in Hsearch.
      rewrite (search_from_None _ _ _ _ Hsearch i) in Hm by lia. discriminate. }
  assert ((forall i d, ~ bounded_at s i d) -> (forall i d, ~ token_at s i d) ->
          extract_cheque_number_from_micr (PyStr s) = Some []) as Hneither.
  { intros Hno Hnot. unfold extract_cheque_number_from_micr. simpl py_truthy.
    case_bool_decide; simpl negb; cbv iota; [reflexivity|].
    rewrite (Hnone Hno). simpl.
    pose proof (re_findall_first s SIX_DIGITS) as Hfirst.
    destruct (sre_search s SIX_DIGITS 0) as [[j [e' g]]|] eqn:Hsearch.
    - unfold sre_search in Hsearch. apply search_from_Some in Hsearch as (_ & Hm & _).
      destruct (six_match_sound _ _ _ _ Hm) as (_ & _ & Ht). destruct (Hnot _ _ Ht).
    - rewrite Hfirst. reflexivity. }
  split; [exact (Hbounded s)|]. split; [exact Htoken|]. split; [exact Hneither|].
  split.
  { intros Hnodigit. apply Hneither.
    - intros i d Hb. destruct (bounded_at_inside _ _ _ Hb) as (_ & a & b & -> & Hne & Hall).
      exact (digits_inside _ _ _ _ Hne Hall Hnodigit).
    - intros i d Ht. destruct (token_at_inside _ _ _ Ht) as (_ & a & b & -> & Hne & Hall).
      exact (digits_inside _ _ _ _ Hne Hall Hnodigit). }
  split.
  { apply (Hbounded _ 0%nat); [|intros; lia].
    exists MICR_ON_US, [], [], MICR_ON_US, (py " 520002206⑆ 000860⑈ 24").
    split; [vm_compute; reflexivity|].
    split; [vm_compute; reflexivity|]. split; [vm_compute; reflexivity|].
    split; [reflexivity|]. split; [reflexivity|].
    split; [vm_compute; reflexivity|discriminate]. }
  split; vm_compute; reflexivity.
Qed.

End MicrTheorem.

Lemma sample_laws : UnicodeLaws sample_runtime.
Proof.
  split; try reflexivity.
  intros c v. simpl.
  destruct ((1632 <=? c) && (c <=? 1641)) eqn:Hc; [|discriminate].
  intros _. apply andb_true_iff in Hc as [Hc _]. apply N.leb_le in Hc.
  apply N.eqb_neq. lia.
Qed.

Lemma extract_cheque_number_from_micr_witness :
  @extract_cheque_number_from_micr sample_runtime
     (PyStr (py "⑈343242⑈ 520002206⑆ 000860⑈ 24")) = Some (py "343242").
Proof.
  exact (proj1 (proj2 (proj2 (proj2 (proj2
    (@extract_cheque_number_from_micr_spec sample_runtime sample_laws [])))))).
Defined.

(** ** The records of the normalisers *)

Section Records.
Context {R : Runtime}.









End Records.

Section Address.
Context {R : Runtime}.

Lemma strings_of_app_Some (a b : list pyval) (l : list (list N)) :
  strings_of (a ++ b) = Some l ->
  exists la lb, strings_of a = Some la /\ strings_of b = Some lb /\ l = la ++ lb.
Proof.
  revert l. induction a as [|v a IH]; intros l; simpl.
  - intros H. exists [], l. done.
  - destruct v; try discriminate.
    destruct (strings_of (a ++ b)) as [l'|] eqn:Hab; [|discriminate].
    simpl. intros [= <-]. destruct (IH _ eq_refl) as (la & lb & -> & Hb & ->).
    exists (s :: la), lb. done.
Qed.


Lemma address_parts_split (d : pydict) :
  address_parts d =
    labelled_part "Floor: " (present d "floor_number")
      ++ labelled_part "Building: " (present d "building_number")
      ++ plain_part (present d "premises_name")
      ++ plain_part (present d "road_street")
      ++ plain_part (present d "locality").
Proof.
  unfold address_parts, labelled_part, plain_part.
  destruct (py_truthy (present d "floor_number")),
    (py_truthy (present d "building_number")),
    (py_truthy (present d "premises_name")),
    (py_truthy (present d "road_street")),
    (py_truthy (present d "locality")); reflexivity.
Qed.

Lemma filter_truthy_plain (v : pyval) :
  filter (fun v => py_truthy v = true) (plain_part v) = plain_part v.
Proof.
  unfold plain_part. destruct (py_truthy v) eqn:Hv; [|reflexivity].
  rewrite filter_cons_True by assumption. reflexivity.
Qed.

Lemma strings_of_plain (v : pyval) (l : list (list N)) :
  strings_of (plain_part v) = Some l -> l = labelled "" v.
Proof.
  unfold plain_part, labelled. destruct (py_truthy v); [|intros [= <-]; reflexivity].
  destruct v; try discriminate. simpl. intros [= <-]. reflexivity.
Qed.


Lemma filter_truthy_labelled (label : string) (v : pyval) :
  py label <> [] ->
  filter (fun v => py_truthy v = true) (labelled_part label v) = labelled_part label v.
Proof.
  intros Hne. unfold labelled_part. destruct (py_truthy v); [|reflexivity].
  rewrite filter_cons_True; [reflexivity|]. simpl.
  rewrite bool_decide_eq_false_2; [reflexivity|].
  intros H. apply app_eq_nil in H as [H _]. done.
Qed.

Lemma strings_of_labelled (label : string) (v : pyval) :
  strings_of (labelled_part label v) = Some (labelled label v).
Proof. unfold labelled_part, labelled. destruct (py_truthy v); reflexivity. Qed.

Lemma filter_address_parts (d : pydict) :
  filter (fun v => py_truthy v = true) (address_parts d) = address_parts d.
Proof.
  rewrite address_parts_split, !filter_app, !filter_truthy_plain.
  rewrite !filter_truthy_labelled by (vm_compute; discriminate). reflexivity.
Qed.

(** When the join succeeds, it joins the lines of the address. *)
Lemma join_truthy_address (d : pydict) (x : list N) :
  join_truthy (py ", ") (address_parts d) = Some x ->
  x = join (py ", ") (address_lines d).
Proof.
  unfold join_truthy. rewrite filter_address_parts, address_parts_split.
  destruct (strings_of _) as [items|] eqn:Hitems; [|discriminate].
  simpl. intros [= <-]. f_equal.
  apply strings_of_app_Some in Hitems as (l1 & r1 & H1 & Hitems & ->).
  apply strings_of_app_Some in Hitems as (l2 & r2 & H2 & Hitems & ->).
  apply strings_of_app_Some in Hitems as (l3 & r3 & H3 & Hitems & ->).
  apply strings_of_app_Some in Hitems as (l4 & l5 & H4 & H5 & ->).
  rewrite strings_of_labelled in H1, H2. injection H1 as <-. injection H2 as <-.
  apply strings_of_plain in H3, H4, H5. subst. reflexivity.
Qed.



End Address.

Section NormaliserTheorems.
Context {R : Runtime}.



End NormaliserTheorems.

Section NormaliserSamples.
#[local] Existing Instance sample_runtime.


End NormaliserSamples.

Section Derived.
Context {R : Runtime}.







(** C5 (amended).  In the record of a GST certificate the full address is
    the join, with a comma and a space, of the address lines: [Floor: ] and
    the floor number, [Building: ] and the building number, the premises
    name, the road or street, and the locality, in this order, each line
    there only when the response's value for it counts as true (for a
    string: is not empty). *)
Theorem gst_full_address (now : list N) (d r : pydict) :
  gst_record now (PyDict d) = Some r ->
  dict_lookup r (py "full_address") = Some (PyStr (join (py ", ") (address_lines d))).
Proof.
  unfold gst_record. destruct (join_truthy _ _) as [full|] eqn:Hfull; [|discriminate].
  cbv beta iota zeta delta [mbind option_bind]. intros [= <-].
  rewrite <- (join_truthy_address _ _ Hfull). lookup_key.
Qed.

End Derived.

Section DerivedSamples.
#[local] Existing Instance sample_runtime.

Lemma gst_full_address_witness :
  (r ← gst_record (py "2025-01-01T12:00:00") (PyDict sample_gst_response);
   dict_lookup r (py "full_address"))
  = Some (PyStr (join (py ", ") (address_lines sample_gst_response))).
Proof.
  destruct (gst_record (py "2025-01-01T12:00:00") (PyDict sample_gst_response))
    as [r|] eqn:Hr.
  - exact (gst_full_address _ _ r Hr).
  - vm_compute in Hr. discriminate.
Defined.

Lemma full_address_carries_labels :
  (r ← gst_record (py "2025-01-01T12:00:00") (PyDict [ (py "floor_number", PyStr (py "2")) ]);
   dict_lookup r (py "full_address")) = Some (PyStr (py "Floor: 2"))
  /\ spec_full_address [ (py "floor_number", PyStr (py "2")) ] = py "2".
Proof. split; vm_compute; reflexivity. Qed.

End DerivedSamples.

(** ** Fenced responses *)

Section Fences.
Context {R : Runtime}.

Lemma startswith_app (a b : list N) : startswith a (a ++ b) = true.
Proof. induction a as [|c a IH]; simpl; [reflexivity|]. rewrite N.eqb_refl, IH. reflexivity. Qed.

Lemma startswith_true (a s : list N) : startswith a s = true -> exists b, s = a ++ b.
Proof.
  revert s. induction a as [|c a IH]; intros s; simpl.
  - intros _. exists s. reflexivity.
  - destruct s as [|c' s]; [discriminate|]. intros H.
    apply andb_true_iff in H as [Hc Hs]. apply N.eqb_eq in Hc as <-.
    destruct (IH _ Hs) as [b ->]. exists b. reflexivity.
Qed.

Lemma startswith_longer (a a' s : list N) :
  startswith a s = false -> startswith (a ++ a') s = false.
Proof.
  revert s. induction a as [|c a IH]; intros s; simpl; [discriminate|].
  destruct s as [|c' s]; [reflexivity|]. intros H.
  apply andb_false_iff in H as [H|H]; [rewrite H; reflexivity|].
  rewrite (IH _ H). apply andb_false_r.
Qed.

Lemma str_find_unfold (sep s : list N) :
  str_find sep s =
    if startswith sep s then Some 0%nat
    else match s with
         | [] => None
         | _ :: r => S <$> str_find sep r
         end.
Proof. destruct s; reflexivity. Qed.

Lemma str_find_None_cons (sep : list N) (c : N) (s : list N) :
  str_find sep (c :: s) = None -> startswith sep (c :: s) = false /\ str_find sep s = None.
Proof.
  rewrite str_find_unfold. destruct (startswith sep (c :: s)); [discriminate|].
  destruct (str_find sep s); [discriminate|]. done.
Qed.

(** A string without the separator has it at no place. *)
Lemma str_find_None (sep s a b : list N) : str_find sep s = None -> s <> a ++ sep ++ b.
Proof.
  revert s. induction a as [|c a IH]; intros s Hfind ->.
  - rewrite str_find_unfold in Hfind. change ([] ++ sep ++ b) with (sep ++ b) in Hfind.
    rewrite startswith_app in Hfind. discriminate.
  - change ((c :: a) ++ sep ++ b) with (c :: (a ++ sep ++ b)) in Hfind.
    apply str_find_None_cons in Hfind as [_ Hfind]. exact (IH _ Hfind eq_refl).
Qed.

(** No fence lies across a line break. *)
Lemma fence_not_across (p t : list N) :
  startswith FENCE p = false -> startswith FENCE (p ++ 10 :: t) = false.
Proof.
  destruct p as [|a [|b [|c r]]]; simpl; intros H.
  - reflexivity.
  - apply andb_false_r.
  - rewrite andb_false_r. apply andb_false_r.
  - exact H.
Qed.

Lemma find_fence_end (p t : list N) :
  str_find FENCE p = None ->
  str_find FENCE (p ++ 10 :: FENCE ++ t) = Some (length p + 1)%nat.
Proof.
  induction p as [|c p IH]; intros Hp.
  - reflexivity.
  - apply str_find_None_cons in Hp as [Hs Hp].
    change ((c :: p) ++ 10 :: FENCE ++ t) with (c :: (p ++ 10 :: FENCE ++ t)).
    rewrite str_find_unfold.
    change (c :: (p ++ 10 :: FENCE ++ t)) with ((c :: p) ++ 10 :: FENCE ++ t) at 1.
    rewrite (fence_not_across _ _ Hs), (IH Hp). reflexivity.
Qed.

Lemma find_fence_pad (p : list N) :
  str_find FENCE p = None -> str_find FENCE (p ++ [10]) = None.
Proof.
  induction p as [|c p IH]; intros Hp.
  - reflexivity.
  - apply str_find_None_cons in Hp as [Hs Hp].
    change ((c :: p) ++ [10]) with (c :: (p ++ [10])).
    rewrite str_find_unfold.
    change (c :: (p ++ [10])) with ((c :: p) ++ [10]) at 1.
    rewrite (fence_not_across _ _ Hs), (IH Hp). reflexivity.
Qed.

Lemma find_tagged_fence (p : list N) :
  str_find FENCE p = None -> str_find FENCE_JSON (p ++ 10 :: FENCE) = None.
Proof.
  induction p as [|c p IH]; intros Hp.
  - reflexivity.
  - apply str_find_None_cons in Hp as [Hs Hp].
    change ((c :: p) ++ 10 :: FENCE) with (c :: (p ++ 10 :: FENCE)).
    rewrite str_find_unfold.
    change (c :: (p ++ 10 :: FENCE)) with ((c :: p) ++ 10 :: FENCE) at 1.
    change FENCE_JSON with (FENCE ++ [106; 115; 111; 110]) at 1.
    rewrite (startswith_longer _ _ _ (fence_not_across _ _ Hs)), (IH Hp). reflexivity.
Qed.

(** ** Stripping *)

Lemma lstrip_suffix (s : list N) : exists a, s = a ++ lstrip s.
Proof.
  induction s as [|c s [a IH]]; [exists []; reflexivity|].
  simpl. destruct (is_space c).
  - exists (c :: a). simpl. rewrite <- IH. reflexivity.
  - exists []. reflexivity.
Qed.

Lemma strip_infix (s : list N) : exists a b, s = a ++ strip s ++ b.
Proof.
  unfold strip. destruct (lstrip_suffix s) as [a Ha].
  destruct (lstrip_suffix (reverse (lstrip s))) as [b Hb].
  exists a, (reverse b). rewrite Ha at 1. f_equal.
  rewrite <- reverse_app, <- Hb, reverse_involutive. reflexivity.
Qed.

Lemma lstrip_snoc_space (s : list N) (c : N) :
  is_space c = true ->
  lstrip (s ++ [c]) = match lstrip s with [] => [] | _ => lstrip s ++ [c] end.
Proof.
  intros Hc. induction s as [|x s IH]; simpl.
  - rewrite Hc. reflexivity.
  - destruct (is_space x); [exact IH|reflexivity].
Qed.

Lemma strip_snoc_space (s : list N) (c : N) : is_space c = true -> strip (s ++ [c]) = strip s.
Proof.
  intros Hc. unfold strip. rewrite lstrip_snoc_space by assumption.
  destruct (lstrip s) as [|x l] eqn:Hl; [reflexivity|].
  rewrite reverse_app. simpl. rewrite Hc. reflexivity.
Qed.

Lemma strip_cons_space (s : list N) (c : N) : is_space c = true -> strip (c :: s) = strip s.
Proof. intros Hc. unfold strip. simpl. rewrite Hc. reflexivity. Qed.

Lemma strip_between (c : N) (m : list N) (c' : N) :
  is_space c = false -> is_space c' = false -> strip (c :: m ++ [c']) = c :: m ++ [c'].
Proof.
  intros Hc Hc'. unfold strip. simpl. rewrite Hc.
  rewrite reverse_cons, reverse_app. simpl. rewrite Hc'.
  rewrite reverse_cons, reverse_app, reverse_involutive. reflexivity.
Qed.

End Fences.

Section Unwrap.
Context {R : Runtime}.

Lemma split_none (sep s : list N) (f : nat) :
  str_find sep s = None -> str_split_fuel f sep s = [s].
Proof. intros H. destruct f; simpl; [reflexivity|]. rewrite H. reflexivity. Qed.

Lemma split_head (sep s : list N) (f n : nat) :
  str_find sep s = Some n ->
  str_split_fuel (S f) sep s = take n s :: str_split_fuel f sep (drop (n + length sep) s).
Proof. intros H. simpl. rewrite H. reflexivity. Qed.

Lemma find_at_start (sep b : list N) : str_find sep (sep ++ b) = Some 0%nat.
Proof. rewrite str_find_unfold, startswith_app. reflexivity. Qed.

Lemma no_fence_after_break (p : list N) :
  str_find FENCE p = None -> str_find FENCE (10 :: p) = None.
Proof. intros H. rewrite str_find_unfold. simpl startswith. rewrite H. reflexivity. Qed.

Lemma second_item {A : Type} (x : A) (l : list A) : (x :: l) !! 1%nat = l !! 0%nat.
Proof. reflexivity. Qed.

(** What lies between the fences of a fenced payload: the payload between
    two line breaks. *)
Lemma between_fences_fenced (fence p : list N) :
  fence = FENCE \/ fence = FENCE_JSON ->
  str_find FENCE p = None ->
  between_fences fence (fence ++ 10 :: p ++ 10 :: FENCE) = Some (strip p).
Proof.
  intros Hfence Hp. pose proof (no_fence_after_break _ Hp) as Hp'.
  set (rest := 10 :: p ++ 10 :: FENCE).
  assert (str_find FENCE rest = Some (S (length p) + 1)%nat) as Hclose.
  { pose proof (find_fence_end (10 :: p) [] Hp') as H. rewrite app_nil_r in H. exact H. }
  assert (take (S (length p) + 1) rest = 10 :: p ++ [10]) as Htake.
  { unfold rest. change (10 :: p ++ 10 :: FENCE) with ((10 :: p) ++ 10 :: FENCE).
    rewrite (take_app_add' (10 :: p) (10 :: FENCE) (S (length p)) 1 eq_refl).
    reflexivity. }
  assert (str_split fence (fence ++ rest) !! 1%nat
          = Some (if bool_decide (fence = FENCE) then 10 :: p ++ [10] else rest)) as Hpiece.
  { unfold str_split.
    assert (exists f, length (fence ++ rest) = S (S f)) as [f ->].
    { rewrite length_app. unfold rest. simpl.
      destruct Hfence as [-> | ->]; simpl; eexists; reflexivity. }
    rewrite (split_head _ _ _ _ (find_at_start fence rest)).
    simpl plus. rewrite drop_app_length, second_item.
    destruct Hfence as [-> | ->].
    - rewrite bool_decide_eq_true_2 by reflexivity.
      rewrite (split_head _ _ _ _ Hclose), Htake. reflexivity.
    - rewrite bool_decide_eq_false_2 by discriminate.
      rewrite split_none; [reflexivity|]. apply (find_tagged_fence (10 :: p)), Hp'. }
  unfold between_fences. fold rest. rewrite Hpiece. simpl.
  assert (forall piece, piece = 10 :: p ++ [10] \/ piece = rest ->
            str_split FENCE piece !! 0%nat = Some (10 :: p ++ [10])) as Hinner.
  { intros piece [-> | ->]; unfold str_split.
    - rewrite split_none; [reflexivity|]. apply (find_fence_pad (10 :: p)), Hp'.
    - unfold rest at 1. simpl length. rewrite (split_head _ _ _ _ Hclose), Htake.
      reflexivity. }
  rewrite Hinner by (case_bool_decide; [left|right]; reflexivity). simpl.
  change (10 :: p ++ [10]) with ((10 :: p) ++ [10]).
  rewrite strip_snoc_space, strip_cons_space by reflexivity. reflexivity.
Qed.

Lemma fenced_between (tag p : list N) :
  fenced tag p = 96 :: (96 :: 96 :: tag ++ 10 :: p ++ [10; 96; 96]) ++ [96].
Proof.
  unfold fenced, FENCE. simpl. do 3 f_equal. rewrite <- !app_assoc. simpl.
  rewrite <- !app_assoc. reflexivity.
Qed.

Lemma strip_fenced (tag p : list N) : strip (fenced tag p) = fenced tag p.
Proof. rewrite fenced_between. apply strip_between; reflexivity. Qed.

Lemma unwrap_fenced_json (p : list N) :
  str_find FENCE p = None -> unwrap (fenced (py "json") p) = Some (strip p).
Proof.
  intros Hp. unfold unwrap. rewrite strip_fenced.
  change (fenced (py "json") p) with (FENCE_JSON ++ 10 :: p ++ 10 :: FENCE).
  rewrite startswith_app. apply between_fences_fenced; [right; reflexivity|assumption].
Qed.

Lemma unwrap_fenced_plain (p : list N) :
  str_find FENCE p = None -> unwrap (fenced [] p) = Some (strip p).
Proof.
  intros Hp. unfold unwrap. rewrite strip_fenced.
  change (fenced [] p) with (FENCE ++ 10 :: p ++ 10 :: FENCE).
  rewrite startswith_app.
  assert (startswith FENCE_JSON (FENCE ++ 10 :: p ++ 10 :: FENCE) = false) as -> by reflexivity.
  apply between_fences_fenced; [left; reflexivity|assumption].
Qed.

Lemma unwrap_bare (p : list N) : str_find FENCE p = None -> unwrap p = Some (strip p).
Proof.
  intros Hp. unfold unwrap.
  assert (startswith FENCE (strip p) = false) as Hs.
  { destruct (startswith FENCE (strip p)) eqn:Hs; [|reflexivity].
    apply startswith_true in Hs as [b Hb].
    destruct (strip_infix p) as (a & c & Hinfix). rewrite Hb, <- app_assoc in Hinfix.
    destruct (str_find_None _ _ _ _ Hp Hinfix). }
  change FENCE_JSON with (FENCE ++ [106; 115; 111; 110]).
  rewrite (startswith_longer _ _ _ Hs), Hs. reflexivity.
Qed.

(** C6 (amended).  For every payload that holds no run of three backticks,
    the response text that is the payload alone, the payload in a fenced
    block tagged [json], and the payload in a fenced block without a tag all
    unwrap to the same text, the payload without the white space around it,
    and so parse to the same result. *)
Theorem fence_unwrap_same (p : list N) :
  str_find FENCE p = None ->
  unwrap p = Some (strip p)
  /\ parse_response (fenced (py "json") p) = parse_response p
  /\ parse_response (fenced [] p) = parse_response p.
Proof.
  intros Hp. unfold parse_response.
  rewrite unwrap_fenced_json, unwrap_fenced_plain, unwrap_bare by assumption. done.
Qed.

End Unwrap.

Section UnwrapSamples.
#[local] Existing Instance sample_runtime.

Lemma fence_unwrap_same_witness :
  unwrap (pyq "{'amount_numbers': '5000000'}") = Some (strip (pyq "{'amount_numbers': '5000000'}"))
  /\ parse_response (fenced (py "json") (pyq "{'amount_numbers': '5000000'}"))
     = parse_response (pyq "{'amount_numbers': '5000000'}")
  /\ parse_response (fenced [] (pyq "{'amount_numbers': '5000000'}"))
     = parse_response (pyq "{'amount_numbers': '5000000'}").
Proof. apply fence_unwrap_same. vm_compute. reflexivity. Defined.

Lemma fence_inside_payload :
  parse_response (pyq "{'a':'```'}") = Some (PyDict [ (py "a", PyStr (py "```")) ])
  /\ parse_response (fenced (py "json") (pyq "{'a':'```'}")) = None
  /\ parse_response (fenced [] (pyq "{'a':'```'}")) = None.
Proof. repeat split; vm_compute; reflexivity. Qed.

End UnwrapSamples.

(** ** The request handlers *)

Section HandlerFacts.
Context {R : Runtime}.




Lemma cheque_record_nonempty (now : list N) (v : pyval) (d : pydict) :
  cheque_record now v = Some d -> d <> [].
Proof.
  unfold cheque_record. destruct v; try discriminate.
  destruct (extract_cheque_number_from_micr _); [|discriminate].
  cbv beta iota zeta delta [mbind option_bind]. intros [= <-]. discriminate.
Qed.

Lemma passbook_record_nonempty (now : list N) (v : pyval) (d : pydict) :
  passbook_record now v = Some d -> d <> [].
Proof. unfold passbook_record. destruct v; try discriminate. intros [= <-]. discriminate. Qed.

Lemma gst_record_nonempty (now : list N) (v : pyval) (d : pydict) :
  gst_record now v = Some d -> d <> [].
Proof.
  unfold gst_record. destruct v; try discriminate.
  destruct (join_truthy _ _); [|discriminate].
  cbv beta iota zeta delta [mbind option_bind]. intros [= <-]. discriminate.
Qed.

Lemma normalise_nonempty (e : env) (doc : doc_type)
    (record : list N -> pyval -> option pydict) (img : list N) (d : pydict) :
  (forall now v d', record now v = Some d' -> d' <> []) ->
  normalise e doc record img = Some d -> d <> [].
Proof.
  intros Hrec. unfold normalise. destruct (generate_content e doc img); [discriminate|].
  destruct (parse_response _) as [v|]; [|discriminate].
  cbv beta iota delta [mbind option_bind]. apply Hrec.
Qed.






End HandlerFacts.

Section Cleanup.
Context {R : Runtime}.



End Cleanup.

Section CleanupSamples.
#[local] Existing Instance sample_runtime.



End CleanupSamples.

Section PdfDecision.
Context {R : Runtime}.

Lemma process_calls (doc : doc_type) (run : env -> list N -> exn + option pydict)
    (w0 : wording) (e : env) (req : request) (fs0 : gset (list N)) (file : upload) :
  materialises req file ->
  let filepath := saved_path e file in
  let w' := (process doc run w0 e req (World fs0 [])).2 in
  (forall p dpi, CallConvert p dpi ∈ calls w' <->
     file_save e file filepath = None /\ is_pdf filepath = true
     /\ p = filepath /\ dpi = 300)
  /\ (forall p fmt, CallPageSave p fmt ∈ calls w' ->
      is_pdf filepath = true /\ p = page_path filepath /\ fmt = py "JPEG")
  /\ (forall d p, CallExtract d p ∈ calls w' ->
      d = doc /\ p = if is_pdf filepath then page_path filepath else filepath).
Proof.
  intros [Hfile Hname] filepath w'. subst w'. enter_handler Hfile Hname.
  fold filepath. handler_cases run;
    (split; [intros p dpi|split; [intros p fmt|intros d p]]);
    rewrite ?elem_of_cons, ?elem_of_nil; naive_solver.
Qed.

Lemma process_reads_name_only (doc : doc_type) (run : env -> list N -> exn + option pydict)
    (w0 : wording) (e : env) (req req' : request) (w : world) (file file' : upload) :
  materialises req file -> materialises req' file' ->
  filename file' = filename file ->
  (forall path, file_save e file' path = file_save e file path) ->
  process doc run w0 e req' w = process doc run w0 e req w.
Proof.
  intros [Hfile Hname] [Hfile' Hname'] Hsame Hsave.
  unfold process, process_body. rewrite Hfile, Hfile'.
  rewrite (bool_decide_eq_false_2 _ Hname), (bool_decide_eq_false_2 _ Hname').
  unfold file_save_to, saved_path. rewrite Hsame, Hsave. reflexivity.
Qed.

(** C10.  On each extraction route, for a request that reaches the
    materialisation step: the rasteriser is called exactly when the upload
    was saved and the path it was saved under, lowercased, ends with [.pdf],
    and then on that path at 300 DPI; a page image is written only then, as
    JPEG, to the page path; the normaliser is given the page path then and
    the saved path otherwise.  The saved path is made of the time stamp and
    the client's file name alone, and a request whose file has the same name
    and is saved alike gets the same run whatever its bytes: the content is
    never looked at to tell a PDF from an image. *)
Theorem pdf_decided_by_path :
  Forall (fun r => forall e req fs0 file,
    materialises req file ->
    let filepath := saved_path e file in
    let w' := (handler r e req (World fs0 [])).2 in
    filepath = path_join UPLOAD_FOLDER (now_stamp e ++ py "_" ++ filename file)
    /\ (forall p dpi, CallConvert p dpi ∈ calls w' <->
         file_save e file filepath = None /\ endswith (py ".pdf") (str_lower filepath) = true
         /\ p = filepath /\ dpi = 300)
    /\ (forall p fmt, CallPageSave p fmt ∈ calls w' ->
         is_pdf filepath = true /\ p = page_path filepath /\ fmt = py "JPEG")
    /\ (forall d p, CallExtract d p ∈ calls w' ->
         d = document r /\ p = if is_pdf filepath then page_path filepath else filepath)
    /\ (forall req' file' w,
         materialises req' file' -> filename file' = filename file ->
         (forall path, file_save e file' path = file_save e file path) ->
         handler r e req' w = handler r e req w)) routes.
Proof.
  unfold routes. repeat apply Forall_cons_2; try apply Forall_nil_2;
    intros e req fs0 file Hmat; cbv zeta;
    (split; [reflexivity|]);
    (split; [exact (proj1 (process_calls _ _ _ e req fs0 file Hmat))|]);
    (split; [exact (proj1 (proj2 (process_calls _ _ _ e req fs0 file Hmat)))|]);
    (split; [exact (proj2 (proj2 (process_calls _ _ _ e req fs0 file Hmat)))|]);
    intros req' file' w Hmat' Hsame Hsave;
    exact (process_reads_name_only _ _ _ e req req' w file file' Hmat Hmat' Hsame Hsave).
Qed.

End PdfDecision.

(** * Further properties of the code *)

(** ** The currency formatter *)

Section MoreCurrency.
Context {R : Runtime}.

Lemma filter_digits_of_uint (d : Decimal.uint) :
  List.filter is_decimal (digits_of_uint d) = digits_of_uint d.
Proof. induction d; simpl; [reflexivity|..]; rewrite IHd; reflexivity. Qed.

Lemma str_of_N_nonempty (n : N) : str_of_N n <> [].
Proof.
  intros H. pose proof (py_int_str_of_N n) as Hn. rewrite H in Hn.
  change (py_int []) with 0 in Hn. subst n. discriminate.
Qed.

(** The formatter on any truthy value, through the text [str] gives of it. *)
Lemma format_indian_currency_text (v : pyval) :
  py_truthy v = true ->
  format_indian_currency v =
    match List.filter is_decimal (py_str v) with
    | [] => []
    | (_ :: _) as ds =>
      py "₹ " ++ join (py ",") (indian_groups (str_of_N (py_int ds))) ++ py "/-"
    end.
Proof.
  intros Hv. unfold format_indian_currency. rewrite Hv. simpl negb. cbv iota.
  unfold NON_DIGIT. rewrite re_sub_class, filter_negb_negb.
  destruct (List.filter is_decimal (py_str v)) as [|c ds]; [reflexivity|].
  rewrite indian_digits_groups. reflexivity.
Qed.


(** X1.  On a JSON integer the formatter drops the sign: a non-zero integer
    is formatted as its absolute value, and zero gives the empty string. *)
Theorem format_indian_currency_int (z : Z) :
  format_indian_currency (PyInt z) =
    if (z =? 0)%Z then []
    else py "₹ " ++ join (py ",") (indian_groups (str_of_N (Z.abs_N z))) ++ py "/-".
Proof.
  destruct (z =? 0)%Z eqn:Hz.
  - apply Z.eqb_eq in Hz. subst z. reflexivity.
  - rewrite format_indian_currency_text by (simpl; rewrite Hz; reflexivity).
    apply Z.eqb_neq in Hz.
    assert (List.filter is_decimal (py_str (PyInt z)) = str_of_N (Z.abs_N z)) as ->.
    { simpl py_str. unfold str_of_Z. destruct (z <? 0)%Z eqn:Hneg.
      - apply Z.ltb_lt in Hneg. replace (Z.to_N (- z)) with (Z.abs_N z) by lia.
        change (List.filter is_decimal (45 :: str_of_N (Z.abs_N z)))
          with (List.filter is_decimal (str_of_N (Z.abs_N z))).
        apply filter_digits_of_uint.
      - apply Z.ltb_ge in Hneg. replace (Z.to_N z) with (Z.abs_N z) by lia.
        apply filter_digits_of_uint. }
    destruct (str_of_N (Z.abs_N z)) as [|c l] eqn:Hs; [destruct (str_of_N_nonempty _ Hs)|].
    rewrite <- Hs, py_int_str_of_N. reflexivity.
Qed.

Lemma filter_join (p : N -> bool) (c : N) (gs : list (list N)) :
  p c = false -> List.filter p (join [c] gs) = List.filter p (concat gs).
Proof.
  intros Hc. induction gs as [|g gs IH]; [reflexivity|].
  destruct gs as [|g' gs].
  - simpl. rewrite app_nil_r. reflexivity.
  - change (join [c] (g :: g' :: gs)) with (g ++ [c] ++ join [c] (g' :: gs)).
    change (concat (g :: g' :: gs)) with (g ++ concat (g' :: gs)).
    rewrite !List.filter_app, IH. simpl. rewrite Hc. reflexivity.
Qed.


Lemma length_join (c : N) (gs : list (list N)) :
  gs <> [] -> length (join [c] gs) = (length (concat gs) + length gs - 1)%nat.
Proof.
  induction gs as [|g gs IH]; [done|]. intros _. destruct gs as [|g' gs].
  - simpl. rewrite app_nil_r. lia.
  - change (join [c] (g :: g' :: gs)) with (g ++ [c] ++ join [c] (g' :: gs)).
    change (concat (g :: g' :: gs)) with (g ++ concat (g' :: gs)).
    rewrite !length_app, IH by done. simpl. lia.
Qed.

Lemma length_pairs (n : nat) (l : list N) :
  (length l <= n)%nat -> length (pairs l) = ((length l + 1) / 2)%nat.
Proof.
  revert l. induction n as [|n IH]; intros l Hl.
  - destruct l; [reflexivity|simpl in Hl; lia].
  - destruct l as [|a [|b r]]; [reflexivity|reflexivity|].
    simpl in Hl. change (pairs (a :: b :: r)) with ([a; b] :: pairs r).
    simpl length. rewrite IH by lia.
    replace (S (S (length r)) + 1)%nat with (length r + 1 + 1 * 2)%nat by lia.
    rewrite Nat.div_add by lia. lia.
Qed.

Lemma length_pairs_from_right (l : list N) :
  length (pairs_from_right l) = ((length l + 1) / 2)%nat.
Proof.
  unfold pairs_from_right. rewrite length_reverse, length_map.
  rewrite (length_pairs (length (reverse l))) by lia. rewrite length_reverse. reflexivity.
Qed.

(** X3.  The grouping loop only puts commas in: for every number, taking the
    commas out of its grouped numeral gives its decimal numeral back, and a
    numeral of more than three digits gets one comma for every two digits
    after the first two. *)
Theorem indian_digits_commas (n : N) :
  List.filter (fun c => negb (c =? 44)) (indian_digits (str_of_N n)) = str_of_N n
  /\ length (indian_digits (str_of_N n))
     = if bool_decide (3 < length (str_of_N n))%nat
       then (length (str_of_N n) + (length (str_of_N n) - 2) / 2)%nat
       else length (str_of_N n).
Proof.
  split.
  - rewrite indian_digits_groups, filter_join by reflexivity.
    rewrite concat_indian_groups. unfold str_of_N.
    induction (N.to_uint n); simpl; [reflexivity|..]; rewrite IHu; reflexivity.
  - rewrite indian_digits_groups. unfold indian_groups.
    set (d := str_of_N n). case_bool_decide as Hlen.
    + rewrite length_join by (intros H; apply app_eq_nil in H as [_ H]; discriminate).
      rewrite concat_app, concat_pairs_from_right. simpl concat. rewrite app_nil_r.
      rewrite take_drop, length_app, length_pairs_from_right, length_take. simpl length.
      rewrite Nat.min_l by lia.
      replace (length d - 2)%nat with (length d - 3 + 1)%nat by lia. lia.
    + simpl. reflexivity.
Qed.

End MoreCurrency.

Section MoreCurrencySamples.
#[local] Existing Instance sample_runtime.


End MoreCurrencySamples.

(** ** The MICR parser, the records and the unwrapping *)

Section MoreMicr.
Context {R : Runtime}.

(** X4.  The cheque number is a run of decimal digits cut out of the MICR
    line: on every value the parser either returns a string of decimal digits
    that is empty or occurs in the given string, or it raises, and it raises
    only on a value that counts as true and is no string. *)
Theorem extract_cheque_number_digits (v : pyval) :
  match extract_cheque_number_from_micr v with
  | Some d =>
    forallb is_decimal d = true
    /\ (d = [] \/ exists s a b, v = PyStr s /\ s = a ++ d ++ b)
  | None => py_truthy v = true /\ is_str v = false
  end.
Proof.
  unfold extract_cheque_number_from_micr.
  destruct (py_truthy v) eqn:Hv; simpl negb; cbv iota; [|split; [reflexivity|left; reflexivity]].
  destruct v as [| | | |s| |]; try (split; reflexivity).
  pose proof (re_findall_first s MICR_SEGMENT) as Hfirst.
  destruct (sre_search s MICR_SEGMENT 0) as [[j [e g]]|] eqn:Hsearch.
  - unfold sre_search in Hsearch. apply search_from_Some in Hsearch as (_ & Hm & _).
    destruct (micr_match_sound _ _ _ _ Hm) as (a & b & -> & Hb).
    destruct Hfirst as [rest ->]. simpl.
    destruct (bounded_at_inside _ _ _ Hb) as (_ & a' & b' & Hs & _ & Hall).
    split; [exact Hall|]. right. exists s, a', b'. split; [reflexivity|exact Hs].
  - rewrite Hfirst. simpl.
    pose proof (re_findall_first s SIX_DIGITS) as Hsix.
    destruct (sre_search s SIX_DIGITS 0) as [[j [e g]]|] eqn:Hsearch6.
    + unfold sre_search in Hsearch6. apply search_from_Some in Hsearch6 as (_ & Hm & _).
      destruct (six_match_sound _ _ _ _ Hm) as (-> & -> & Ht).
      destruct Hsix as [rest ->]. simpl.
      destruct (token_at_inside _ _ _ Ht) as (_ & a' & b' & Hs & _ & Hall).
      split; [exact Hall|]. right. exists s, a', b'. split; [reflexivity|exact Hs].
    + rewrite Hsix. split; [reflexivity|left; reflexivity].
Qed.

End MoreMicr.

Section MoreRecords.
Context {R : Runtime}.




End MoreRecords.

Section MoreUnwrap.
Context {R : Runtime}.

Lemma split_first (f : nat) (sep s : list N) : is_Some (str_split_fuel f sep s !! 0%nat).
Proof. destruct f; simpl; [done|]. destruct (str_find sep s); done. Qed.

Lemma between_fences_Some (fence t : list N) :
  fence <> [] -> startswith fence t = true -> exists inner, between_fences fence t = Some (strip inner).
Proof.
  intros Hne Hstart. apply startswith_true in Hstart as [b ->].
  unfold between_fences, str_split.
  destruct fence as [|c fence]; [done|]. simpl length.
  rewrite (split_head _ _ _ 0%nat) by apply (find_at_start (c :: fence) b).
  rewrite second_item.
  destruct (split_first (length (fence ++ b)) (c :: fence)
              (drop (0 + length (c :: fence)) ((c :: fence) ++ b))) as [piece ->].
  cbv beta iota zeta delta [mbind option_bind].
  destruct (split_first (length piece) FENCE piece) as [inner Hinner].
  unfold str_split. rewrite Hinner. exists inner. reflexivity.
Qed.

Lemma lstrip_head (s : list N) :
  match lstrip s with
  | c :: _ => is_space c = false
  | [] => True
  end.
Proof.
  induction s as [|c s IH]; simpl; [exact I|].
  destruct (is_space c) eqn:Hc; [exact IH|exact Hc].
Qed.

Lemma lstrip_fixed (s : list N) :
  match s with
  | c :: _ => is_space c = false
  | [] => True
  end -> lstrip s = s.
Proof. destruct s as [|c s]; simpl; [reflexivity|]. intros ->. reflexivity. Qed.

Lemma strip_strip (s : list N) : strip (strip s) = strip s.
Proof.
  unfold strip. set (u := lstrip s). set (v := lstrip (reverse u)).
  assert (lstrip (reverse v) = reverse v) as ->.
  { apply lstrip_fixed.
    destruct (lstrip_suffix (reverse u)) as [a Ha]. fold v in Ha.
    apply (f_equal reverse) in Ha. rewrite reverse_involutive, reverse_app in Ha.
    pose proof (lstrip_head s) as Hu. fold u in Hu.
    destruct (reverse v) as [|c r]; [exact I|].
    rewrite Ha in Hu. exact Hu. }
  rewrite reverse_involutive.
  rewrite (lstrip_fixed v); [reflexivity|]. apply lstrip_head.
Qed.

(** X6.  Unwrapping never fails: on every response text the unwrap step
    yields a text for the decoder, the indexing of the pieces of the split
    never goes out of range, and the text it yields has no white space at
    either end (stripping it again changes nothing). *)
Theorem unwrap_total (text : list N) :
  exists json_text, unwrap text = Some json_text /\ strip json_text = json_text.
Proof.
  unfold unwrap.
  destruct (startswith FENCE_JSON (strip text)) eqn:Hjson.
  - destruct (between_fences_Some FENCE_JSON (strip text)) as [inner ->];
      [discriminate|assumption|].
    eexists. split; [reflexivity|apply strip_strip].
  - destruct (startswith FENCE (strip text)) eqn:Hfence.
    + destruct (between_fences_Some FENCE (strip text)) as [inner ->];
        [discriminate|assumption|].
      eexists. split; [reflexivity|apply strip_strip].
    + eexists. split; [reflexivity|apply strip_strip].
Qed.

End MoreUnwrap.

Section Trailing.
Context {R : Runtime}.

Lemma lstrip_app_kept (u v : list N) :
  lstrip v = v -> v <> [] ->
  exists u1 u2, u = u1 ++ u2 /\ lstrip (u ++ v) = u2 ++ v.
Proof.
  intros Hv Hne. induction u as [|x u (u1 & u2 & Hu & IH)].
  - exists [], []. split; [reflexivity|exact Hv].
  - simpl. destruct (is_space x) eqn:Hx.
    + exists (x :: u1), u2. split; [rewrite Hu; reflexivity|exact IH].
    + exists [], (x :: u). split; reflexivity.
Qed.

(** Stripping a text that begins with a block between two characters that
    are no white space keeps the block. *)
Lemma strip_keeps_front (c : N) (m : list N) (c' : N) (b : list N) :
  is_space c = false -> is_space c' = false ->
  exists b1 b2, b = b1 ++ b2 /\ strip ((c :: m ++ [c']) ++ b) = (c :: m ++ [c']) ++ b1.
Proof.
  intros Hc Hc'. unfold strip.
  assert (lstrip ((c :: m ++ [c']) ++ b) = (c :: m ++ [c']) ++ b) as ->.
  { simpl. rewrite Hc. reflexivity. }
  rewrite reverse_app.
  assert (reverse (c :: m ++ [c']) = c' :: reverse (c :: m)) as Hrev.
  { change (c :: m ++ [c']) with ((c :: m) ++ [c']). rewrite reverse_app. reflexivity. }
  destruct (lstrip_app_kept (reverse b) (reverse (c :: m ++ [c']))) as (u1 & u2 & Hu & ->).
  - rewrite Hrev. simpl. rewrite Hc'. reflexivity.
  - rewrite Hrev. discriminate.
  - exists (reverse u2), (reverse u1). split.
    + rewrite <- reverse_app, <- Hu, reverse_involutive. reflexivity.
    + rewrite reverse_app, reverse_involutive. reflexivity.
Qed.

Lemma startswith_shorter (a a' s : list N) :
  startswith (a ++ a') s = true -> startswith a s = true.
Proof.
  intros H. destruct (startswith a s) eqn:Ha; [reflexivity|].
  rewrite (startswith_longer _ a' _ Ha) in H. discriminate.
Qed.

(** Where [find] finds the separator, it stands, and nowhere before. *)
Lemma str_find_Some (sep s : list N) (n : nat) :
  str_find sep s = Some n ->
  startswith sep (drop n s) = true
  /\ forall j, (j < n)%nat -> startswith sep (drop j s) = false.
Proof.
  revert n. induction s as [|c s IH]; intros n; rewrite str_find_unfold.
  - destruct (startswith sep []) eqn:Hs; [|discriminate]. intros [= <-].
    split; [exact Hs|intros j Hj; lia].
  - destruct (startswith sep (c :: s)) eqn:Hs.
    + intros [= <-]. split; [exact Hs|intros j Hj; lia].
    + destruct (str_find sep s) as [k|]; [|discriminate]. intros [= <-].
      destruct (IH k eq_refl) as [Hk Hbefore]. split; [exact Hk|].
      intros [|j] Hj; [exact Hs|]. apply Hbefore. lia.
Qed.

(** What lies between the fences when text follows the closing fence. *)
Lemma between_fences_trailing (fence p t : list N) :
  fence = FENCE \/ fence = FENCE_JSON ->
  str_find FENCE p = None ->
  startswith [96] t = false ->
  between_fences fence (fence ++ 10 :: p ++ 10 :: FENCE ++ t) = Some (strip p).
Proof.
  intros Hfence Hp Ht. pose proof (no_fence_after_break _ Hp) as Hp'.
  set (rest := 10 :: p ++ 10 :: FENCE ++ t).
  set (body := 10 :: p ++ [10]).
  assert (length body = (S (length p) + 1)%nat) as Hlen.
  { unfold body. simpl. rewrite length_app. reflexivity. }
  assert (rest = body ++ FENCE ++ t) as Hrest.
  { unfold rest, body. simpl. rewrite <- app_assoc. reflexivity. }
  assert (forall t', str_find FENCE (body ++ FENCE ++ t') = Some (length body)) as Hclose.
  { intros t'. rewrite Hlen. unfold body.
    replace ((10 :: p ++ [10]) ++ FENCE ++ t') with ((10 :: p) ++ 10 :: FENCE ++ t')
      by (simpl; rewrite <- app_assoc; reflexivity).
    exact (find_fence_end (10 :: p) t' Hp'). }
  assert (str_find FENCE body = None) as Hbody by exact (find_fence_pad (10 :: p) Hp').
  assert (forall piece,
            piece = body \/ (exists t', piece = body ++ FENCE ++ t') ->
            str_split FENCE piece !! 0%nat = Some body) as Hinner.
  { intros piece [-> | [t' ->]]; unfold str_split.
    - rewrite split_none by exact Hbody. reflexivity.
    - assert (exists f, length (body ++ FENCE ++ t') = S f) as [f ->]
        by (unfold body; simpl; eexists; reflexivity).
      rewrite (split_head _ _ _ _ (Hclose t')), take_app_length. reflexivity. }
  assert (exists piece, str_split fence (fence ++ rest) !! 1%nat = Some piece
            /\ (piece = body \/ exists t', piece = body ++ FENCE ++ t')) as (piece & Hpiece & Hshape).
  { unfold str_split.
    assert (exists f, length (fence ++ rest) = S (S f)) as [f ->].
    { rewrite length_app. unfold rest. simpl.
      destruct Hfence as [-> | ->]; simpl; eexists; reflexivity. }
    rewrite (split_head _ _ _ _ (find_at_start fence rest)).
    simpl plus. rewrite drop_app_length, second_item.
    destruct Hfence as [-> | ->].
    - rewrite Hrest, (split_head _ _ _ _ (Hclose t)), take_app_length.
      exists body. split; [reflexivity|left; reflexivity].
    - destruct (str_find FENCE_JSON rest) as [n|] eqn:Hn.
      + rewrite (split_head _ _ _ _ Hn). exists (take n rest). split; [reflexivity|].
        apply str_find_Some in Hn as [Hat _].
        pose proof (Hclose t) as Hc. rewrite <- Hrest in Hc.
        apply str_find_Some in Hc as [_ Hbefore].
        assert (length body <= n)%nat as Hle.
        { destruct (decide (length body <= n)%nat) as [H|H]; [exact H|]. exfalso.
          change FENCE_JSON with (FENCE ++ [106; 115; 111; 110]) in Hat.
          apply startswith_shorter in Hat. rewrite Hbefore in Hat by lia. discriminate. }
        rewrite Hrest in *.
        destruct (decide (n = length body)) as [-> | Hne].
        { left. apply take_app_length. }
        right. replace n with (length body + (n - length body))%nat in * by lia.
        rewrite drop_app_add in Hat. rewrite take_app_add.
        destruct (n - length body)%nat as [|[|[|k]]] eqn:Hk; [lia|..].
        * exfalso. destruct t as [|x t]; [discriminate|].
          simpl in Hat, Ht. rewrite andb_true_r in Ht. rewrite Ht in Hat.
          simpl in Hat. discriminate.
        * exfalso. destruct t as [|x t]; [discriminate|].
          simpl in Hat, Ht. rewrite andb_true_r in Ht. rewrite Ht in Hat.
          simpl in Hat. discriminate.
        * exists (take k t). reflexivity.
      + rewrite split_none by exact Hn. exists rest. split; [reflexivity|].
        right. exists t. exact Hrest. }
  unfold between_fences. fold rest. rewrite Hpiece.
  cbv beta iota zeta delta [mbind option_bind].
  rewrite (Hinner piece Hshape).
  unfold body. change (10 :: p ++ [10]) with ((10 :: p) ++ [10]).
  rewrite strip_snoc_space, strip_cons_space by reflexivity. reflexivity.
Qed.

(** X7.  Text after the closing fence is ignored.  For every payload that
    holds no run of three backticks, in a fenced block with the tag [json] or
    without a tag, followed by any text that does not begin with a backtick:
    the unwrap step yields the payload without the white space around it, and
    the response parses as the payload alone does. *)
Theorem unwrap_ignores_trailing_text (tag p rest : list N) :
  tag = py "json" \/ tag = [] ->
  str_find FENCE p = None ->
  startswith [96] rest = false ->
  unwrap (fenced tag p ++ rest) = Some (strip p)
  /\ parse_response (fenced tag p ++ rest) = parse_response p.
Proof.
  intros Htag Hp Hrest.
  assert (unwrap (fenced tag p ++ rest) = Some (strip p)) as Hunwrap.
  { unfold unwrap. rewrite fenced_between.
    destruct (strip_keeps_front 96 (96 :: 96 :: tag ++ 10 :: p ++ [10; 96; 96]) 96 rest)
      as (b1 & b2 & Hb & ->); [reflexivity|reflexivity|].
    rewrite <- fenced_between.
    assert (startswith [96] b1 = false) as Hb1.
    { destruct b1 as [|x b1]; [reflexivity|]. rewrite Hb in Hrest. exact Hrest. }
    destruct Htag as [-> | ->].
    - replace (fenced (py "json") p ++ b1) with (FENCE_JSON ++ 10 :: p ++ 10 :: FENCE ++ b1)
        by (unfold fenced; simpl; rewrite <- !app_assoc; reflexivity).
      rewrite startswith_app.
      apply between_fences_trailing; [right; reflexivity|assumption|assumption].
    - replace (fenced [] p ++ b1) with (FENCE ++ 10 :: p ++ 10 :: FENCE ++ b1)
        by (unfold fenced; simpl; rewrite <- !app_assoc; reflexivity).
      rewrite startswith_app.
      assert (startswith FENCE_JSON (FENCE ++ 10 :: p ++ 10 :: FENCE ++ b1) = false) as ->
        by reflexivity.
      apply between_fences_trailing; [left; reflexivity|assumption|assumption]. }
  split; [exact Hunwrap|].
  unfold parse_response. rewrite Hunwrap, (unwrap_bare p Hp). reflexivity.
Qed.

End Trailing.

Section TrailingSamples.
#[local] Existing Instance sample_runtime.

Lemma unwrap_ignores_trailing_text_witness :
  let p := pyq "{'bank_name': 'SBI'}" in
  let rest := 10 :: py "Let me know if you need anything else." in
  unwrap (fenced (py "json") p ++ rest) = Some (strip p)
  /\ parse_response (fenced (py "json") p ++ rest) = parse_response p.
Proof.
  intros p rest. apply unwrap_ignores_trailing_text.
  - left. reflexivity.
  - vm_compute. reflexivity.
  - reflexivity.
Defined.

End TrailingSamples.

(** ** The handlers and the disk *)

Section MoreHandlers.
Context {R : Runtime}.

Lemma process_frame (doc : doc_type) (run : env -> list N -> exn + option pydict)
    (w0 : wording) (e : env) (req : request) (w : world) (file : upload) :
  materialises req file ->
  let p := saved_path e file in
  let w' := (process doc run w0 e req w).2 in
  (forall q, q ∈ fs w -> q <> p -> q <> page_path p -> q ∈ fs w')
  /\ (forall q, q ∈ fs w' -> q ∈ fs w \/ q = p \/ (is_pdf p = true /\ q = page_path p))
  /\ (forall q, CallRemove q ∈ calls w' ->
        CallRemove q ∈ calls w \/ q = p \/ (is_pdf p = true /\ q = page_path p)).
Proof.
  intros [Hfile Hname] p w'. subst w'. enter_handler Hfile Hname. fold p.
  handler_cases run; (split; [|split]); intros q;
    rewrite ?elem_of_app, ?elem_of_cons, ?elem_of_nil; try set_solver; naive_solver.
Qed.

(** X8.  A handler touches no file but its own two.  For every request that
    reaches the materialisation step, whatever the collaborators do: every
    other file that was on disk is still there when the handler has answered,
    the only files that can have appeared are the saved upload and, for a
    PDF, its page image, and these are the only paths it asks to remove. *)
Theorem handler_keeps_other_files :
  Forall (fun r => forall e req w file,
    materialises req file ->
    let p := saved_path e file in
    let w' := (handler r e req w).2 in
    (forall q, q ∈ fs w -> q <> p -> q <> page_path p -> q ∈ fs w')
    /\ (forall q, q ∈ fs w' -> q ∈ fs w \/ q = p \/ (is_pdf p = true /\ q = page_path p))
    /\ (forall q, CallRemove q ∈ calls w' ->
          CallRemove q ∈ calls w \/ q = p \/ (is_pdf p = true /\ q = page_path p))) routes.
Proof.
  unfold routes. repeat apply Forall_cons_2; try apply Forall_nil_2;
    intros e req w file; apply process_frame.
Qed.

(** The calls of a complete run. *)
Lemma process_protocol (doc : doc_type) (run : env -> list N -> exn + option pydict)
    (w0 : wording) (e : env) (req : request) (w : world) (file : upload)
    (resp : response) (w' : world) :
  materialises req file ->
  process doc run w0 e req w = (inr resp, w') ->
  let p := saved_path e file in
  let full :=
    if is_pdf p
    then [ CallSave p; CallConvert p 300; CallPageSave (page_path p) (py "JPEG");
           CallExtract doc (page_path p); CallRemove (page_path p); CallRemove p ]
    else [ CallSave p; CallExtract doc p; CallRemove p ] in
  exists new, calls w' = calls w ++ new /\ new <> [] /\ new `prefix_of` full
    /\ (~ is_server_error resp -> new = full).
Proof.
  intros [Hfile Hname] Heq p full. subst full. revert Heq.
  enter_handler Hfile Hname. fold p.
  handler_cases run; intros Heq; simplify_eq; cbn [fs calls];
    rewrite <- ?(assoc_L (++)); cbn [app];
    (eexists; split; [reflexivity|]; split; [discriminate|];
     split; [eexists; cbn [app]; reflexivity|]);
    intros Hns; first [reflexivity|exfalso; apply Hns; vm_compute; reflexivity].
Qed.

(** X9.  The order of the calls.  For every request that reaches the
    materialisation step, the calls a handler makes are a non-empty initial
    part of one fixed sequence: save, normalise, remove the upload for an
    image; save, rasterise at 300 DPI, write the page as JPEG, normalise the
    page, remove the page, remove the upload for a PDF.  When the answer is
    not the [Server error] of the [except] clause, the whole sequence has
    been run. *)
Theorem handler_call_order :
  Forall (fun r => forall e req w file resp w',
    materialises req file ->
    handler r e req w = (inr resp, w') ->
    let p := saved_path e file in
    let full :=
      if is_pdf p
      then [ CallSave p; CallConvert p 300; CallPageSave (page_path p) (py "JPEG");
             CallExtract (document r) (page_path p); CallRemove (page_path p); CallRemove p ]
      else [ CallSave p; CallExtract (document r) p; CallRemove p ] in
    exists new, calls w' = calls w ++ new /\ new <> [] /\ new `prefix_of` full
      /\ (~ is_server_error resp -> new = full)) routes.
Proof.
  unfold routes. repeat apply Forall_cons_2; try apply Forall_nil_2;
    intros e req w file resp w'; apply process_protocol.
Qed.

Lemma page_path_other (p : list N) : page_path p <> p.
Proof.
  unfold page_path. intros H. apply (f_equal length) in H.
  rewrite length_app in H. simpl in H. lia.
Qed.

Lemma process_leaves_upload (doc : doc_type) (run : env -> list N -> exn + option pydict)
    (w0 : wording) (e : env) (req : request) (w : world) (file : upload)
    (resp : response) (w' : world) :
  materialises req file ->
  process doc run w0 e req w = (inr resp, w') ->
  file_save e file (saved_path e file) = None ->
  saved_path e file ∈ fs w' <-> is_server_error resp.
Proof.
  intros [Hfile Hname]. enter_handler Hfile Hname. intros Heq Hsave.
  rewrite Hsave in Heq. revert Heq.
  pose proof (page_path_other (saved_path e file)) as Hother.
  handler_cases run; intros Heq; simplify_eq; cbn [fs calls];
    (split;
     [ intros Hin; first [exfalso; clear -Hin Hother; set_solver|vm_compute; reflexivity]
     | intros Herr; first [clear -Hother; set_solver|exfalso; vm_compute in Herr; discriminate] ]).
Qed.

(** X10.  When the upload stays behind.  For every request whose upload was
    saved: the saved file is still on disk when the handler has answered
    exactly when the answer is the [Server error] of the [except] clause.
    Every exception after the save leaves the upload on disk. *)
Theorem upload_left_on_server_error :
  Forall (fun r => forall e req w file resp w',
    materialises req file ->
    handler r e req w = (inr resp, w') ->
    file_save e file (saved_path e file) = None ->
    saved_path e file ∈ fs w' <-> is_server_error resp) routes.
Proof.
  unfold routes. repeat apply Forall_cons_2; try apply Forall_nil_2;
    intros e req w file resp w'; apply process_leaves_upload.
Qed.

End MoreHandlers.

(** ** Requests end to end *)

Section Composition.
Context {R : Runtime}.

Lemma process_image (doc : doc_type) (record : list N -> pyval -> option pydict)
    (run : env -> list N -> exn + option pydict)
    (w0 : wording) (e : env) (req : request) (w : world) (file : upload)
    (img : list N) :
  opens_then_normalises doc record run ->
  (forall now v d, record now v = Some d -> d <> []) ->
  materialises req file ->
  let p := saved_path e file in
  is_pdf p = false ->
  file_save e file p = None ->
  image_open e p = inr img ->
  os_remove e p = None ->
  process doc run w0 e req w
  = (inr (answer w0 (normalise e doc record img)),
     World (({[ p ]} ∪ fs w) ∖ {[ p ]})
       (calls w ++ [ CallSave p; CallExtract doc p; CallRemove p ])).
Proof.
  intros Hrun Hrec [Hfile Hname] p Hpdf Hsave Hopen Hrm. subst p.
  enter_handler Hfile Hname. rewrite Hsave. cbn [fs calls fst snd app].
  rewrite Hpdf, Hrun, Hopen. cbn [fs calls fst snd app].
  rewrite Hrm. cbn [fs calls fst snd app].
  answer_by_data (fun d => normalise_nonempty e doc record img d Hrec).
Qed.

Lemma process_unreadable (doc : doc_type) (record : list N -> pyval -> option pydict)
    (run : env -> list N -> exn + option pydict)
    (w0 : wording) (e : env) (req : request) (w : world) (file : upload) (x : exn) :
  opens_then_normalises doc record run ->
  materialises req file ->
  let p := saved_path e file in
  is_pdf p = false ->
  file_save e file p = None ->
  image_open e p = inl x ->
  process doc run w0 e req w
  = (inr (Response 500 (error_body (py "Server error") (exn_str x))),
     World ({[ p ]} ∪ fs w) (calls w ++ [ CallSave p; CallExtract doc p ])).
Proof.
  intros Hrun [Hfile Hname] p Hpdf Hsave Hopen. subst p.
  enter_handler Hfile Hname. rewrite Hsave. cbn [fs calls fst snd app].
  rewrite Hpdf, Hrun, Hopen. cbn [fs calls fst snd app].
  rewrite <- !(assoc_L (++)). reflexivity.
Qed.

Lemma process_no_page (doc : doc_type) (run : env -> list N -> exn + option pydict)
    (w0 : wording) (e : env) (req : request) (w : world) (file : upload) :
  materialises req file ->
  let p := saved_path e file in
  is_pdf p = true ->
  file_save e file p = None ->
  convert_from_path e p 300 = inr [] ->
  process doc run w0 e req w
  = (inr (Response 500 (error_body (py "Server error") (py "list index out of range"))),
     World ({[ p ]} ∪ fs w) (calls w ++ [ CallSave p; CallConvert p 300 ])).
Proof.
  intros [Hfile Hname] p Hpdf Hsave Hconv. subst p.
  enter_handler Hfile Hname. rewrite Hsave. cbn [fs calls fst snd app].
  rewrite Hpdf, Hconv. cbn [fs calls fst snd app].
  rewrite <- !(assoc_L (++)). reflexivity.
Qed.





Lemma process_failures (doc : doc_type) (record : list N -> pyval -> option pydict)
    (run : env -> list N -> exn + option pydict)
    (w0 : wording) (e : env) (req : request) (w : world) (file : upload) :
  opens_then_normalises doc record run ->
  (forall now v d, record now v = Some d -> d <> []) ->
  materialises req file ->
  let p := saved_path e file in
  is_pdf p = false ->
  file_save e file p = None ->
  (forall x, image_open e p = inl x ->
     process doc run w0 e req w
     = (inr (Response 500 (error_body (py "Server error") (exn_str x))),
        World ({[ p ]} ∪ fs w) (calls w ++ [ CallSave p; CallExtract doc p ])))
  /\ (forall img x,
        image_open e p = inr img ->
        generate_content e doc img = inl x ->
        os_remove e p = None ->
        process doc run w0 e req w
        = (inr (Response 500 (error_body (py "Extraction failed") (failure_message w0))),
           World (({[ p ]} ∪ fs w) ∖ {[ p ]})
             (calls w ++ [ CallSave p; CallExtract doc p; CallRemove p ]))).
Proof.
  intros Hrun Hrec Hmat p Hpdf Hsave. split.
  - intros x Hopen.
    exact (process_unreadable _ record _ _ e req w file x Hrun Hmat Hpdf Hsave Hopen).
  - intros img x Hopen Hgen Hrm.
    rewrite (process_image _ record _ _ e req w file img Hrun Hrec Hmat Hpdf Hsave Hopen Hrm).
    unfold normalise. rewrite Hgen. reflexivity.
Qed.

(** X12.  The two ways a normaliser can fail are answered differently.  On
    each route, for a saved image upload: when the image cannot be opened,
    the exception leaves the normaliser, the answer is the [Server error] of
    the [except] clause with the text of the exception, and the upload stays
    on disk; when the call to the service raises, the normaliser swallows the
    exception, the answer is [Extraction failed], and the upload is removed. *)
Theorem normaliser_failures :
  Forall (fun r => forall e req w file,
    materialises req file ->
    let p := saved_path e file in
    is_pdf p = false ->
    file_save e file p = None ->
    (forall x, image_open e p = inl x ->
       handler r e req w
       = (inr (Response 500 (error_body (py "Server error") (exn_str x))),
          World ({[ p ]} ∪ fs w) (calls w ++ [ CallSave p; CallExtract (document r) p ])))
    /\ (forall img x,
          image_open e p = inr img ->
          generate_content e (document r) img = inl x ->
          os_remove e p = None ->
          handler r e req w
          = (inr (Response 500
                    (error_body (py "Extraction failed") (failure_message (words r)))),
             World (({[ p ]} ∪ fs w) ∖ {[ p ]})
               (calls w ++ [ CallSave p; CallExtract (document r) p; CallRemove p ]))))
    routes.
Proof.
  unfold routes. repeat apply Forall_cons_2; try apply Forall_nil_2;
    intros e req w file;
    [ apply (process_failures _ cheque_record); [|apply cheque_record_nonempty]
    | apply (process_failures _ gst_record); [|apply gst_record_nonempty]
    | apply (process_failures _ passbook_record); [|apply passbook_record_nonempty] ];
    intros e' path; reflexivity.
Qed.

(** X13.  A PDF without pages.  On each route, when the rasteriser returns
    an empty list of pages for a saved PDF upload, the indexing of the first
    page raises: the answer is the [Server error] with the text
    [list index out of range], no page image is written, the normaliser is not
    called, and the upload stays on disk. *)
Theorem pdf_without_pages :
  Forall (fun r => forall e req w file,
    materialises req file ->
    let p := saved_path e file in
    is_pdf p = true ->
    file_save e file p = None ->
    convert_from_path e p 300 = inr [] ->
    handler r e req w
    = (inr (Response 500 (error_body (py "Server error") (py "list index out of range"))),
       World ({[ p ]} ∪ fs w) (calls w ++ [ CallSave p; CallConvert p 300 ]))) routes.
Proof.
  unfold routes. repeat apply Forall_cons_2; try apply Forall_nil_2;
    intros e req w file; apply process_no_page.
Qed.


End Composition.

Section MoreHandlerSamples.
#[local] Existing Instance sample_runtime.

Lemma handler_keeps_other_files_witness :
  let e := kind_env (py "{}") in
  let req := upload_request "scan.pdf" in
  let w := World {[ py "uploads/other.png" ]} [] in
  let p := py "uploads/20250101_120000_scan.pdf" in
  let w' := (process_cheque e req w).2 in
  (forall q, q ∈ fs w -> q <> p -> q <> page_path p -> q ∈ fs w')
  /\ (forall q, q ∈ fs w' -> q ∈ fs w \/ q = p \/ (is_pdf p = true /\ q = page_path p))
  /\ (forall q, CallRemove q ∈ calls w' ->
        CallRemove q ∈ calls w \/ q = p \/ (is_pdf p = true /\ q = page_path p)).
Proof.
  intros e req w p w'.
  destruct (Forall_cons_1 _ _ _ handler_keeps_other_files) as [Hcheque _].
  apply (Hcheque e req w (Upload (py "scan.pdf") [37; 80; 68; 70])).
  split; [vm_compute; reflexivity|discriminate].
Defined.

Lemma handler_call_order_witness :
  let e := broken_pdf_env (py "{}") in
  let req := upload_request "scan.pdf" in
  let p := saved_path e (Upload (py "scan.pdf") [37; 80; 68; 70]) in
  let out := process_cheque e req empty_world in
  let resp := match out.1 with
              | inr r => r
              | inl _ => Response 0 []
              end in
  exists new, calls out.2 = calls empty_world ++ new /\ new <> []
    /\ new `prefix_of`
         (if is_pdf p
          then [ CallSave p; CallConvert p 300; CallPageSave (page_path p) (py "JPEG");
                 CallExtract Cheque (page_path p); CallRemove (page_path p); CallRemove p ]
          else [ CallSave p; CallExtract Cheque p; CallRemove p ])
    /\ (~ is_server_error resp ->
        new = if is_pdf p
              then [ CallSave p; CallConvert p 300; CallPageSave (page_path p) (py "JPEG");
                     CallExtract Cheque (page_path p); CallRemove (page_path p);
                     CallRemove p ]
              else [ CallSave p; CallExtract Cheque p; CallRemove p ]).
Proof.
  intros e req p out resp.
  destruct (Forall_cons_1 _ _ _ handler_call_order) as [Hcheque _].
  apply (Hcheque e req empty_world (Upload (py "scan.pdf") [37; 80; 68; 70]) resp out.2).
  - split; [vm_compute; reflexivity|discriminate].
  - vm_compute. reflexivity.
Defined.

Lemma upload_left_on_server_error_witness :
  let e := broken_pdf_env (py "{}") in
  let req := upload_request "scan.pdf" in
  let file := Upload (py "scan.pdf") [37; 80; 68; 70] in
  let out := process_cheque e req empty_world in
  let resp := match out.1 with
              | inr r => r
              | inl _ => Response 0 []
              end in
  saved_path e file ∈ fs out.2 <-> is_server_error resp.
Proof.
  intros e req file out resp.
  destruct (Forall_cons_1 _ _ _ upload_left_on_server_error) as [Hcheque _].
  apply (Hcheque e req empty_world file resp out.2).
  - split; [vm_compute; reflexivity|discriminate].
  - vm_compute. reflexivity.
  - reflexivity.
Defined.


Lemma normaliser_failures_witness :
  let req := upload_request "cheque.png" in
  let file := Upload (py "cheque.png") [37; 80; 68; 70] in
  let p := saved_path unreadable_env file in
  let p' := saved_path offline_env file in
  let x := Exception (py "cannot identify image file") in
  process_gst unreadable_env req empty_world
  = (inr (Response 500 (error_body (py "Server error") (exn_str x))),
     World ({[ p ]} ∪ fs empty_world)
       (calls empty_world ++ [ CallSave p; CallExtract Gst p ]))
  /\ process_gst offline_env req empty_world
     = (inr (Response 500
               (error_body (py "Extraction failed") (failure_message gst_wording))),
        World (({[ p' ]} ∪ fs empty_world) ∖ {[ p' ]})
          (calls empty_world ++ [ CallSave p'; CallExtract Gst p'; CallRemove p' ])).
Proof.
  intros req file p p' x.
  destruct (Forall_cons_1 _ _ _ normaliser_failures) as [_ Hrest].
  destruct (Forall_cons_1 _ _ _ Hrest) as [Hgst _].
  assert (materialises req file) as Hmat by (split; [vm_compute; reflexivity|discriminate]).
  assert (is_pdf p = false) as Hpdf by (vm_compute; reflexivity).
  assert (is_pdf p' = false) as Hpdf' by (vm_compute; reflexivity).
  destruct (Hgst unreadable_env req empty_world file Hmat Hpdf eq_refl) as [Hopen _].
  destruct (Hgst offline_env req empty_world file Hmat Hpdf' eq_refl) as [_ Hcall].
  split.
  - exact (Hopen x eq_refl).
  - exact (Hcall [2] (Exception (py "503 service unavailable")) eq_refl eq_refl eq_refl).
Defined.

Lemma pdf_without_pages_witness :
  let req := upload_request "scan.PDF" in
  let p := py "uploads/20250101_120000_scan.PDF" in
  process_passbook blank_pdf_env req empty_world
  = (inr (Response 500 (error_body (py "Server error") (py "list index out of range"))),
     World ({[ p ]} ∪ fs empty_world) (calls empty_world ++ [ CallSave p; CallConvert p 300 ])).
Proof.
  intros req p.
  destruct (Forall_cons_1 _ _ _ pdf_without_pages) as [_ Hrest].
  destruct (Forall_cons_1 _ _ _ Hrest) as [_ Hrest'].
  destruct (Forall_cons_1 _ _ _ Hrest') as [Hpassbook _].
  apply (Hpassbook blank_pdf_env req empty_world (Upload (py "scan.PDF") [37; 80; 68; 70])).
  - split; [vm_compute; reflexivity|discriminate].
  - vm_compute. reflexivity.
  - reflexivity.
  - reflexivity.
Defined.


End MoreHandlerSamples.
